(** * Engage Bot: the points ledger and the inactivity sweeps of [bot.js]

    A shallow embedding of the handlers of [src/bot.js] over an explicit
    model of the two SQLite tables and of the messages handed to the
    Telegram client.

    Modelling conventions.
    - JavaScript strings are sequences of UTF-16 code units: [list N].
      [js] turns an ASCII literal into such a sequence.
    - The [users] table has [id INTEGER PRIMARY KEY]: a finite map from the
      id to the remaining columns.  The [links] table is append only: the
      list of its rows in rowid order.
    - [points] is an SQLite INTEGER.  It is modelled as an unbounded [Z]:
      the 64-bit range of SQLite and the 2^53 range of JavaScript numbers
      are far from every amount the handlers add or subtract, and they are
      not part of this model.
    - DATETIME columns hold [CURRENT_TIMESTAMP], which has a resolution of
      one second; they are modelled as seconds since the epoch, which is
      what [strftime('%s', _)] computes from them.  The time at which a
      handler runs is its parameter [now].
    - Handlers run in the state-and-exception monad [M] over a [world]:
      the database and the list of calls made on the bot client. *)

From Stdlib Require Import ZArith String Ascii DecimalString.
From stdpp Require Import base tactics option list gmap fin_maps sorting.

Local Open Scope Z_scope.

(** ** Strings *)

Abbreviation str := (list N).

Fixpoint js (s : string) : str :=
  match s with
  | EmptyString => []
  | String a s' => N_of_ascii a :: js s'
  end.

(** [String(n)] for an integral number: its decimal digits. *)
Definition String_of_int (n : Z) : str :=
  js (NilZero.string_of_int (Z.to_int n)).

(** ** JavaScript values that reach the handlers *)

Inductive jsval :=
| JNum (n : Z)      (* an integral number *)
| JUndefined
| JObject.          (* an object or a function: truthy, and not bindable *)

(** Truthiness, as used by [a || b]. *)
Definition truthy (v : jsval) : bool :=
  match v with
  | JNum n => negb (n =? 0)
  | JUndefined => false
  | JObject => true
  end.

Definition js_or (a b : jsval) : jsval := if truthy a then a else b.

(** [s || d] for an optional string [s] ([None] is [undefined]). *)
Definition str_or (s : option str) (d : str) : str :=
  match s with
  | Some (c :: r) => c :: r
  | _ => d
  end.

(** ** The database *)

(** A row of [users], without its key. *)
Record user_row := mk_user_row {
  username : str;
  points : Z;
  last_active : Z;
  warned : Z
}.

Record link_row := mk_link_row {
  link_id : Z;
  user_id : Z;
  url : str;
  title : str;
  created_at : Z
}.

Record database := mk_database {
  users : gmap Z user_row;
  links : list link_row;
  link_seq : Z          (* AUTOINCREMENT: the largest rowid handed out *)
}.

(** The tables right after the two [CREATE TABLE IF NOT EXISTS]. *)
Definition empty_db : database :=
  {| users := ∅; links := []; link_seq := 0 |}.

(** ** Calls on the bot client *)

Inductive text :=
| Welcome (first_name : str) (pts : Z)
| ProfileCard (uname : str) (pts : Z) (last : Z)
| NotEnoughPoints (cost pts : Z)
| LinkPosted (ttl u : str)
| NoLinks
| LinkCard (ttl u : str) (id : Z)   (* with the like_/comment_/repost_ keyboard *)
| Earned (uname : str) (earned : jsval)
| BotStats (nusers nlinks total : Z)
| InactivityWarning
| InactivityPenalty
| AssistantReply (reply : str)
| AssistantFallback.

Inductive call :=
| SendMessage (chat : Z) (t : text)
| AnswerCallbackQuery (query_id : str) (earned : jsval).

Record world := mk_world {
  db : database;
  sent : list call      (* oldest first *)
}.

Definition empty_world : world := {| db := empty_db; sent := [] |}.

(** ** The handler monad *)

(** The exception a prepared statement raises when it is handed a value it
    cannot bind. *)
Inductive error := TypeError.

Inductive result (A : Type) :=
| Ok (a : A)
| Throw (e : error).
Arguments Ok {A} a.
Arguments Throw {A} e.

Definition M (A : Type) : Type := world → result A * world.

#[global] Instance M_ret : MRet M := λ A a w, (Ok a, w).

#[global] Instance M_bind : MBind M := λ A B k m w,
  match m w with
  | (Ok a, w') => k a w'
  | (Throw e, w') => (Throw e, w')
  end.

Definition throw {A} (e : error) : M A := λ w, (Throw e, w).

Definition get_db : M database := λ w, (Ok (db w), w).
Definition put_db (d : database) : M unit :=
  λ w, (Ok tt, {| db := d; sent := sent w |}).
Definition modify_db (f : database → database) : M unit :=
  d ← get_db; put_db (f d).
Definition emit (c : call) : M unit :=
  λ w, (Ok tt, {| db := db w; sent := sent w ++ [c] |}).

(** [forEach]: run the callback on each element, in order; an exception
    leaves the loop. *)
Fixpoint forEach {A} (l : list A) (f : A → M unit) : M unit :=
  match l with
  | [] => mret tt
  | x :: l' => f x ;; forEach l' f
  end.

(** The world a handler leaves behind, whether it returned or threw. *)
Definition run {A} (m : M A) (w : world) : world := (m w).2.
Definition returns {A} (m : M A) (w : world) : Prop := ∃ a, (m w).1 = Ok a.

(** ** Statements and client calls *)

(** Binding a parameter of a prepared statement where the handlers pass a
    number: better-sqlite3 binds numbers (and strings, bigints, buffers and
    null) and throws a TypeError on any other value. *)
Definition bind_number (v : jsval) : M Z :=
  match v with
  | JNum n => mret n
  | _ => throw TypeError
  end.

Definition with_users (f : gmap Z user_row → gmap Z user_row) (d : database) : database :=
  {| users := f (users d); links := links d; link_seq := link_seq d |}.

(** [UPDATE users SET ... WHERE id = ?]: the row with that key, if any. *)
Definition update_user (id : Z) (f : user_row → user_row) : M unit :=
  modify_db (with_users (alter f id)).

Definition set_points (p : Z) (r : user_row) : user_row :=
  {| username := username r; points := p; last_active := last_active r; warned := warned r |}.
Definition set_warned (b : Z) (r : user_row) : user_row :=
  {| username := username r; points := points r; last_active := last_active r; warned := b |}.
Definition touch (now : Z) (r : user_row) : user_row :=
  {| username := username r; points := points r; last_active := now; warned := 0 |}.

(** [INSERT INTO links (user_id, url, title) VALUES (?, ?, ?)]. *)
Definition insert_link (now uid : Z) (u t : str) : M unit :=
  modify_db (λ d,
    {| users := users d;
       links := links d ++ [{| link_id := link_seq d + 1; user_id := uid;
                               url := u; title := t; created_at := now |}];
       link_seq := link_seq d + 1 |}).

Definition sendMessage (chat : Z) (t : text) : M unit := emit (SendMessage chat t).
Definition answerCallbackQuery (qid : str) (earned : jsval) : M unit :=
  emit (AnswerCallbackQuery qid earned).

(** ** Helper functions of bot.js *)

(** The object [getUser] returns: a row of the table, or the literal built
    for a new user (whose [username] is the raw one, possibly undefined). *)
Record user := mk_user {
  u_id : Z;
  u_username : option str;
  u_points : Z;
  u_last_active : Z;
  u_warned : Z
}.

Definition user_of_row (id : Z) (r : user_row) : user :=
  {| u_id := id; u_username := Some (username r); u_points := points r;
     u_last_active := last_active r; u_warned := warned r |}.

Definition getUser (now id : Z) (uname : option str) : M user :=
  d ← get_db;
  match users d !! id with
  | Some r => mret (user_of_row id r)
  | None =>
      modify_db (with_users (insert id
        {| username := str_or uname (js "unknown"); points := 0;
           last_active := now; warned := 0 |})) ;;
      mret {| u_id := id; u_username := uname; u_points := 0;
             u_last_active := now; u_warned := 0 |}
  end.

Definition updateActivity (now id : Z) : M unit :=
  update_user id (touch now).

Definition addPoints (id : Z) (amount : jsval) : M unit :=
  a ← bind_number amount;
  update_user id (λ r, set_points (points r + a) r).

Definition deductPoints (id : Z) (amount : jsval) : M unit :=
  a ← bind_number amount;
  update_user id (λ r, set_points (points r - a) r).

(** ** Incoming updates *)

Record message := mk_message {
  from_id : Z;
  from_username : option str;
  from_first_name : option str;
  chat_id : Z;
  msg_text : option str
}.

Record callback_query := mk_callback_query {
  cq_id : str;
  cq_from_id : Z;
  cq_from_username : option str;
  cq_chat_id : Z;
  cq_data : str
}.

(** ** Commands *)

Definition on_start (now : Z) (msg : message) : M unit :=
  user ← getUser now (from_id msg) (from_username msg);
  sendMessage (chat_id msg)
    (Welcome (str_or (from_first_name msg) (js "friend")) (u_points user)).

Definition on_profile (now : Z) (msg : message) : M unit :=
  user ← getUser now (from_id msg) (from_username msg);
  sendMessage (chat_id msg)
    (ProfileCard (str_or (u_username user) (js "unknown")) (u_points user)
                 (u_last_active user)).

Definition cost : Z := 1000.

(** The callback of [/droplink]; [m1] and [m2] are [match[1]] and
    [match[2]]. *)
Definition on_droplink (now : Z) (msg : message) (m1 m2 : str) : M unit :=
  let url := m1 in
  let title := m2 in
  user ← getUser now (from_id msg) (from_username msg);
  if u_points user <? cost then
    sendMessage (chat_id msg) (NotEnoughPoints cost (u_points user))
  else
    deductPoints (u_id user) (JNum cost) ;;
    insert_link now (u_id user) url title ;;
    updateActivity now (u_id user) ;;
    sendMessage (chat_id msg) (LinkPosted title url).

(** [/browse]: [SELECT * FROM links ORDER BY created_at DESC LIMIT 10].
    SQL leaves the order of rows with equal [created_at] open; the model
    sorts the table (in rowid order) with a merge sort. *)
Definition newer_or_same (a b : link_row) : Prop := created_at b ≤ created_at a.

#[global] Instance newer_or_same_dec a b : Decision (newer_or_same a b) :=
  decide (created_at b ≤ created_at a).

Definition recent_links (d : database) : list link_row :=
  take 10 (merge_sort newer_or_same (links d)).

Definition on_browse (msg : message) : M unit :=
  d ← get_db;
  let links := recent_links d in
  if decide (length links = 0%nat) then sendMessage (chat_id msg) NoLinks
  else forEach links (λ link,
         sendMessage (chat_id msg) (LinkCard (title link) (url link) (link_id link))).

(** ** Button handler *)

(** [query.data.split("_")[0]]: the code units before the first underscore
    (all of them when there is none). *)
Fixpoint split_head (data : str) : str :=
  match data with
  | [] => []
  | c :: r => if (c =? 95)%N then [] else c :: split_head r
  end.

(** The properties every object literal inherits from [Object.prototype]:
    each of them is a function, or for [__proto__] the prototype object.
    (A name with an underscore is never the head of a split on the
    underscore; see [split_head_no_underscore].) *)
Definition object_prototype_keys : list str :=
  [ js "constructor"; js "hasOwnProperty"; js "isPrototypeOf";
    js "propertyIsEnumerable"; js "toLocaleString"; js "toString";
    js "valueOf"; js "__defineGetter__"; js "__defineSetter__";
    js "__lookupGetter__"; js "__lookupSetter__"; js "__proto__" ].

(** [pointsMap[action]] for
    [pointsMap = { like: 200, comment: 350, repost: 500 }]: an own property,
    else a property found on the prototype chain, else [undefined]. *)
Definition pointsMap_get (action : str) : jsval :=
  if decide (action = js "like") then JNum 200
  else if decide (action = js "comment") then JNum 350
  else if decide (action = js "repost") then JNum 500
  else if decide (action ∈ object_prototype_keys) then JObject
  else JUndefined.

Definition on_callback_query (now : Z) (query : callback_query) : M unit :=
  let action := split_head (cq_data query) in
  user ← getUser now (cq_from_id query) (cq_from_username query);
  let earned := js_or (pointsMap_get action) (JNum 0) in
  addPoints (u_id user) earned ;;
  updateActivity now (u_id user) ;;
  answerCallbackQuery (cq_id query) earned ;;
  sendMessage (cq_chat_id query)
    (Earned (str_or (u_username user) (js "User")) earned).

(** ** Admin command *)

(** [String(process.env.ADMIN_ID)]; an unset variable is [undefined]. *)
Definition String_of_env (v : option str) : str := default (js "undefined") v.

(** [SELECT SUM(points) FROM users]: NULL when the table has no row. *)
Definition sum_points (m : gmap Z user_row) : option Z :=
  if decide (m = ∅) then None
  else Some (map_fold (λ _ r acc, points r + acc) 0 m).

(** [total || 0] *)
Definition or_zero (total : option Z) : Z :=
  match total with
  | Some n => if n =? 0 then 0 else n
  | None => 0
  end.

Definition on_stats (admin_id : option str) (msg : message) : M unit :=
  if decide (String_of_int (from_id msg) ≠ String_of_env admin_id) then mret tt
  else
    d ← get_db;
    let nusers := Z.of_nat (size (users d)) in
    let nlinks := Z.of_nat (length (links d)) in
    let totalPoints := or_zero (sum_points (users d)) in
    sendMessage (chat_id msg) (BotStats nusers nlinks totalPoints).

(** ** Cron jobs *)

(** The rows of a SELECT without ORDER BY come in an order SQL leaves open;
    the model takes the enumeration order of the map. *)
Definition elapsed (now : Z) (r : user_row) : Z := now - last_active r.

Definition select_warn (now : Z) (d : database) : list (Z * user_row) :=
  filter (λ u, warned u.2 = 0 ∧ elapsed now u.2 > 172800) (map_to_list (users d)).

Definition select_penalty (now : Z) (d : database) : list (Z * user_row) :=
  filter (λ u, elapsed now u.2 > 259200) (map_to_list (users d)).

Definition warn_job (now : Z) : M unit :=
  d ← get_db;
  let inactive := select_warn now d in
  forEach inactive (λ u,
    sendMessage u.1 InactivityWarning ;;
    update_user u.1 (set_warned 1)).

Definition penalty_job (now : Z) : M unit :=
  d ← get_db;
  let penalized := select_penalty now d in
  forEach penalized (λ u,
    deductPoints u.1 (JNum 100) ;;
    sendMessage u.1 InactivityPenalty).

(** ** Regular expressions of the [onText] triggers *)

(** The triggers are built from literal characters and the greedy capture
    group [(.+)]. *)
Inductive atom :=
| Lit (c : N)
| CaptureDotPlus.

Definition lits (s : string) : list atom := Lit <$> js s.

(** [.] matches every code unit but the line terminators. *)
Definition line_terminator (c : N) : bool :=
  ((c =? 10) || (c =? 13) || (c =? 8232) || (c =? 8233))%N.

(** [(.+)] followed by the continuation [k]: the longest run first, then
    one character less on each backtrack, down to one character. *)
Fixpoint dot_plus {R} (k : str → str → option R) (s : str) : option R :=
  match s with
  | [] => None
  | c :: s' =>
      if line_terminator c then None
      else match dot_plus (λ cap rest, k (c :: cap) rest) s' with
           | Some r => Some r
           | None => k [c] s'
           end
  end.

(** A match starting at the head of [s]; the result lists the captures. *)
Fixpoint match_here (re : list atom) (s : str) (caps : list str) : option (list str) :=
  match re with
  | [] => Some (reverse caps)
  | Lit c :: re' =>
      match s with
      | x :: s' => if (x =? c)%N then match_here re' s' caps else None
      | [] => None
      end
  | CaptureDotPlus :: re' =>
      dot_plus (λ cap rest, match_here re' rest (cap :: caps)) s
  end.

(** [regexp.exec(text)] without flags: the leftmost match. *)
Fixpoint exec (re : list atom) (s : str) : option (list str) :=
  match match_here re s [] with
  | Some caps => Some caps
  | None => match s with
            | [] => None
            | _ :: s' => exec re s'
            end
  end.

Definition re_start : list atom := lits "/start".
Definition re_profile : list atom := lits "/profile".
Definition re_droplink : list atom :=
  lits "/droplink " ++ [CaptureDotPlus; Lit 32; CaptureDotPlus].
Definition re_browse : list atom := lits "/browse".
Definition re_stats : list atom := lits "/stats".

(** ** AI conversational handler *)

(** White space and line terminators, as [String.prototype.trim] strips. *)
Definition white_space (c : N) : bool :=
  ((c =? 9) || (c =? 10) || (c =? 11) || (c =? 12) || (c =? 13) || (c =? 32)
   || (c =? 160) || (c =? 5760) || ((8192 <=? c) && (c <=? 8202))
   || (c =? 8232) || (c =? 8233) || (c =? 8239) || (c =? 8287)
   || (c =? 12288) || (c =? 65279))%N.

Fixpoint trim_start (s : str) : str :=
  match s with
  | c :: r => if white_space c then trim_start r else s
  | [] => []
  end.

Definition trim (s : str) : str := reverse (trim_start (reverse (trim_start s))).

(** The guard [!text || text.startsWith("/")] on [msg.text?.trim()]. *)
Definition skipped (t : option str) : bool :=
  match trim <$> t with
  | None | Some [] => true
  | Some (c :: _) => (c =? 47)%N
  end.

(** The listener up to its [await]: the user is resolved. *)
Definition on_message_begin (now : Z) (msg : message) : M unit :=
  if skipped (msg_text msg) then mret tt
  else _ ← getUser now (from_id msg) (from_username msg); mret tt.

(** The listener after its [await]: [assistant] is the text the completion
    call produced, or [None] when the call failed and the [catch] runs. *)
Definition on_message_end (msg : message) (assistant : option str) : M unit :=
  if skipped (msg_text msg) then mret tt
  else match assistant with
       | Some reply => sendMessage (chat_id msg) (AssistantReply reply)
       | None => sendMessage (chat_id msg) AssistantFallback
       end.

(** ** Dispatch of an update *)

(** The client emits [message] to its listeners and then runs the callback
    of every [onText] trigger whose regular expression matches the text, in
    the order of registration; the awaited completion resolves afterwards. *)
Definition onText (re : list atom) (cb : list str → M unit) (msg : message) : M unit :=
  match msg_text msg with
  | Some t => match exec re t with
              | Some caps => cb caps
              | None => mret tt
              end
  | None => mret tt
  end.

Inductive update :=
| Message (msg : message) (assistant : option str)
| CallbackQuery (query : callback_query).

Definition sender (u : update) : Z :=
  match u with
  | Message msg _ => from_id msg
  | CallbackQuery query => cq_from_id query
  end.

Definition process (now : Z) (admin_id : option str) (u : update) : M unit :=
  match u with
  | Message msg assistant =>
      on_message_begin now msg ;;
      onText re_start (λ _, on_start now msg) msg ;;
      onText re_profile (λ _, on_profile now msg) msg ;;
      onText re_droplink (λ caps,
        on_droplink now msg (default [] (caps !! 0%nat)) (default [] (caps !! 1%nat))) msg ;;
      onText re_browse (λ _, on_browse msg) msg ;;
      onText re_stats (λ _, on_stats admin_id msg) msg ;;
      on_message_end msg assistant
  | CallbackQuery query => on_callback_query now query
  end.

Definition text_message (from chat : Z) (t : string) : message :=
  {| from_id := from; from_username := None; from_first_name := None;
     chat_id := chat; msg_text := Some (js t) |}.

(** * Vocabulary of the properties *)

(** ** Reading the state *)

Definition balance (w : world) (id : Z) : option Z := points <$> users (db w) !! id.
Definition link_count (w : world) : nat := length (links (db w)).
Definition links_of (id : Z) (w : world) : list link_row :=
  filter (λ l, user_id l = id) (links (db w)).

(** The row a first contact inserts. *)
Definition new_row (now : Z) (uname : option str) : user_row :=
  {| username := str_or uname (js "unknown"); points := 0;
     last_active := now; warned := 0 |}.

(** ** Sample data *)

Definition world_with (id : Z) (r : user_row) : world :=
  {| db := {| users := {[ id := r ]}; links := []; link_seq := 0 |}; sent := [] |}.

Definition row_with (p : Z) (last w : Z) : user_row :=
  {| username := js "u1"; points := p; last_active := last; warned := w |}.

Definition press (from chat : Z) (data : string) : callback_query :=
  {| cq_id := js "q1"; cq_from_id := from; cq_from_username := None;
     cq_chat_id := chat; cq_data := js data |}.

(** What [earned] is for an action kind. *)
Definition earned_for (action : str) : jsval := js_or (pointsMap_get action) (JNum 0).

(** ** Counting calls *)

#[global] Instance jsval_eq_dec : EqDecision jsval.
Proof. solve_decision. Defined.

#[global] Instance text_eq_dec : EqDecision text.
Proof. solve_decision. Defined.

#[global] Instance call_eq_dec : EqDecision call.
Proof. solve_decision. Defined.

(** The calls a handler added to those already made. *)
Definition new_calls (w w' : world) : list call := drop (length (sent w)) (sent w').

Definition count_call (c : call) (calls : list call) : nat :=
  length (filter (λ x, x = c) calls).

Definition warnings_to (id : Z) : list call → nat :=
  count_call (SendMessage id InactivityWarning).
Definition penalties_to (id : Z) : list call → nat :=
  count_call (SendMessage id InactivityPenalty).

(** The rows a loop over selected users rewrites. *)
Definition alter_all (f : user_row → user_row) (l : list (Z * user_row))
    (m : gmap Z user_row) : gmap Z user_row :=
  foldl (λ m u, alter f u.1 m) m l.

(** The world after the penalty job has run at each of the times [ticks],
    in that order. *)
Definition penalty_ticks (ticks : list Z) (w : world) : world :=
  foldl (λ w t, run (penalty_job t) w) w ticks.

(** ** Orders on the result of /browse *)

(** Each link is strictly newer than every link after it. *)
Definition strictly_newest_first (l : list link_row) : Prop :=
  StronglySorted (λ a b, created_at b < created_at a) l.

(** Each link is at least as new as every link after it. *)
Definition newest_first (l : list link_row) : Prop :=
  StronglySorted newer_or_same l.

(** Two users post a link each within the same second. *)
Definition two_posters : world :=
  {| db := {| users := {[ 1 := row_with 1000 0 0; 2 := row_with 1000 0 0 ]};
              links := []; link_seq := 0 |};
     sent := [] |}.

Definition same_second_posts : world :=
  run (on_droplink 7 (text_message 2 9 "") (js "http://b") (js "B"))
    (run (on_droplink 7 (text_message 1 9 "") (js "http://a") (js "A")) two_posters).

(** The sum of all balances. *)
Definition total_points (m : gmap Z user_row) : Z :=
  map_fold (λ _ r acc, points r + acc) 0 m.

(** ** Which updates resolve their sender *)

Definition matches (re : list atom) (msg : message) : bool :=
  match msg_text msg with
  | Some t => bool_decide (is_Some (exec re t))
  | None => false
  end.

(** The updates on which some listener calls [getUser]: every button press,
    and a message that is relayed to the assistant or triggers /start,
    /profile or /droplink. *)
Definition resolves_user (u : update) : bool :=
  match u with
  | CallbackQuery _ => true
  | Message msg _ =>
      negb (skipped (msg_text msg)) || matches re_start msg
      || matches re_profile msg || matches re_droplink msg
  end.

(** No row of [users] is ever removed. *)
Definition keeps_users {A} (m : M A) : Prop :=
  ∀ w id, is_Some (users (db w) !! id) → is_Some (users (db (run m w)) !! id).

(** The [users] table is left as it was. *)
Definition frames_users {A} (m : M A) : Prop :=
  ∀ w, users (db (run m w)) = users (db w).

(** A row for [id] exists afterwards. *)
Definition resolves {A} (id : Z) (m : M A) : Prop :=
  ∀ w, is_Some (users (db (run m w)) !! id).

(** No exception. *)
Definition total {A} (m : M A) : Prop := ∀ w, returns m w.

(** Code units [.] matches. *)
Definition dots (s : str) : Prop := Forall (λ c, line_terminator c = false) s.

(** ** The keyboard under a link card *)

(** The [callback_data] of the three buttons /browse puts under the card of
    link [id], in the order of the keyboard row: [like_${link.id}],
    [comment_${link.id}], [repost_${link.id}].  Their labels read +200,
    +350 and +500. *)
Definition keyboard_data (id : Z) : list str :=
  [ js "like_" ++ String_of_int id;
    js "comment_" ++ String_of_int id;
    js "repost_" ++ String_of_int id ].

(** The same button pressed [n] times in a row. *)
Definition presses (n : nat) (now : Z) (query : callback_query) (w : world) : world :=
  Nat.iter n (run (on_callback_query now query)) w.

(** The row [getUser] works on: the stored one, or the one it inserts. *)
Definition row_or_new (now : Z) (uname : option str) (w : world) (id : Z) : user_row :=
  default (new_row now uname) (users (db w) !! id).

(** ** Runs of the bot *)

(** What the process reacts to: an update from Telegram, or a firing of one
    of the two cron schedules; each comes with the time it is handled at. *)
Inductive event :=
| Update (now : Z) (u : update)
| WarnTick (now : Z)
| PenaltyTick (now : Z).

Definition apply_event (admin_id : option str) (w : world) (e : event) : world :=
  match e with
  | Update now u => run (process now admin_id u) w
  | WarnTick now => run (warn_job now) w
  | PenaltyTick now => run (penalty_job now) w
  end.

Definition run_events (admin_id : option str) (es : list event) (w : world) : world :=
  foldl (apply_event admin_id) w es.

(** A handler relates every world to the world it leaves. *)
Definition steps (R : relation world) {A} (m : M A) : Prop := ∀ w, R w (run m w).

(** The functions the UPDATE statements apply to a row: none touches the
    username, and warned is kept or set to 0 or 1. *)
Definition row_edit (f : user_row → user_row) : Prop :=
  ∀ r, username (f r) = username r ∧
       (warned (f r) = warned r ∨ warned (f r) = 0 ∨ warned (f r) = 1).

Definition row_ok (r : user_row) : Prop :=
  username r ≠ [] ∧ (warned r = 0 ∨ warned r = 1).

(** Consistency of the two tables: the sequence counts the links, the link
    in position [i] has id [i + 1] and an owner with a row, and every user
    row has a name and a 0/1 flag. *)
Definition db_ok (d : database) : Prop :=
  link_seq d = Z.of_nat (length (links d)) ∧
  (∀ i l, links d !! i = Some l →
     link_id l = Z.of_nat i + 1 ∧ is_Some (users d !! user_id l)) ∧
  (∀ id r, users d !! id = Some r → row_ok r).

Definition keeps_ok (w w' : world) : Prop := db_ok (db w) → db_ok (db w').

(** Nothing is taken back: links are only appended, users only added, and
    calls on the client only added. *)
Definition grows (w w' : world) : Prop :=
  links (db w) `prefix_of` links (db w') ∧
  (∀ id, is_Some (users (db w) !! id) → is_Some (users (db w') !! id)) ∧
  sent w `prefix_of` sent w'.

(** The row of [id], when it is [r], stays [r]. *)
Definition keeps_row (id : Z) (r : user_row) (w w' : world) : Prop :=
  users (db w) !! id = Some r → users (db w') !! id = Some r.

(** * Properties *)

(** ** The helpers, run *)

Ltac run_handler :=
  cbv [run returns mbind M_bind mret M_ret modify_db get_db put_db emit throw
       update_user insert_link updateActivity sendMessage deductPoints
       addPoints bind_number answerCallbackQuery with_users];
  cbn [db sent users links link_seq fst snd].

Lemma getUser_existing now id uname w r :
  users (db w) !! id = Some r →
  getUser now id uname w = (Ok (user_of_row id r), w).
Proof. intros H. unfold getUser. run_handler. by rewrite H. Qed.

Lemma getUser_new now id uname w :
  users (db w) !! id = None →
  getUser now id uname w =
    (Ok {| u_id := id; u_username := uname; u_points := 0;
           u_last_active := now; u_warned := 0 |},
     {| db := with_users (insert id (new_row now uname)) (db w); sent := sent w |}).
Proof. intros H. unfold getUser. run_handler. by rewrite H. Qed.

Lemma getUser_returns now id uname w : returns (getUser now id uname) w.
Proof.
  destruct (users (db w) !! id) as [r|] eqn:H.
  - exists (user_of_row id r). by rewrite (getUser_existing _ _ _ _ _ H).
  - eexists. by rewrite (getUser_new _ _ _ _ H).
Qed.

Lemma update_user_run id f w :
  update_user id f w =
    (Ok tt, {| db := with_users (alter f id) (db w); sent := sent w |}).
Proof. reflexivity. Qed.

Lemma on_droplink_success now msg m1 m2 w r :
  users (db w) !! from_id msg = Some r →
  cost ≤ points r →
  on_droplink now msg m1 m2 w =
    (Ok tt,
     {| db := {| users := <[from_id msg := touch now (set_points (points r - cost) r)]> (users (db w));
                 links := links (db w) ++
                   [{| link_id := link_seq (db w) + 1; user_id := from_id msg;
                       url := m1; title := m2; created_at := now |}];
                 link_seq := link_seq (db w) + 1 |};
        sent := sent w ++ [SendMessage (chat_id msg) (LinkPosted m2 m1)] |}).
Proof.
  intros H Hp. unfold on_droplink.
  unfold mbind at 1, M_bind at 1.
  rewrite (getUser_existing _ _ _ _ _ H).
  cbn [user_of_row u_points u_id].
  destruct (Z.ltb_spec (points r) cost); [lia|].
  run_handler. do 3 f_equal.
  apply map_eq; intros j. destruct (decide (from_id msg = j)) as [<-|Hne].
  - rewrite lookup_alter_eq, lookup_alter_eq, lookup_insert_eq, H. done.
  - by rewrite !lookup_alter_ne, lookup_insert_ne.
Qed.

Lemma on_droplink_failure now msg m1 m2 w r :
  users (db w) !! from_id msg = Some r →
  points r < cost →
  on_droplink now msg m1 m2 w =
    (Ok tt,
     {| db := db w;
        sent := sent w ++ [SendMessage (chat_id msg) (NotEnoughPoints cost (points r))] |}).
Proof.
  intros H Hp. unfold on_droplink.
  unfold mbind at 1, M_bind at 1.
  rewrite (getUser_existing _ _ _ _ _ H).
  cbn [user_of_row u_points u_id].
  destruct (Z.ltb_spec (points r) cost); [|lia].
  reflexivity.
Qed.

Lemma on_droplink_first_contact now msg m1 m2 w :
  users (db w) !! from_id msg = None →
  on_droplink now msg m1 m2 w =
    (Ok tt,
     {| db := with_users (insert (from_id msg) (new_row now (from_username msg))) (db w);
        sent := sent w ++ [SendMessage (chat_id msg) (NotEnoughPoints cost 0)] |}).
Proof.
  intros H. unfold on_droplink.
  unfold mbind at 1, M_bind at 1.
  rewrite (getUser_new _ _ _ _ H). reflexivity.
Qed.

(** ** Posting a link *)

(** C1: a /droplink callback run for a user whose balance is at least 1000
    lowers that balance by exactly 1000 and appends exactly one row to the
    links table, owned by that user; run for a user whose balance is below
    1000 it leaves the balance and the links table as they were, so no row
    is created for that user. *)
Theorem droplink_debits_cost_and_adds_link now msg m1 m2 w r :
  users (db w) !! from_id msg = Some r →
  let w' := run (on_droplink now msg m1 m2) w in
  returns (on_droplink now msg m1 m2) w ∧
  (1000 ≤ points r →
     balance w' (from_id msg) = Some (points r - 1000) ∧
     link_count w' = S (link_count w) ∧
     links (db w') = links (db w) ++
       [{| link_id := link_seq (db w) + 1; user_id := from_id msg;
           url := m1; title := m2; created_at := now |}]) ∧
  (points r < 1000 →
     balance w' (from_id msg) = Some (points r) ∧
     link_count w' = link_count w ∧
     links_of (from_id msg) w' = links_of (from_id msg) w).
Proof.
  intros H w'. subst w'. unfold run, returns, balance, link_count, links_of.
  destruct (Z_lt_ge_dec (points r) cost) as [Hlt|Hge].
  - rewrite (on_droplink_failure _ _ _ _ _ _ H Hlt). cbn [fst snd db sent].
    split; [by eexists|]. split; [unfold cost in *; lia|].
    intros _. by rewrite H.
  - assert (cost ≤ points r) as Hle by lia.
    rewrite (on_droplink_success _ _ _ _ _ _ H Hle). cbn [fst snd db sent users links].
    split; [by eexists|]. split; [|unfold cost in *; lia].
    intros _. rewrite lookup_insert_eq, length_app. cbn.
    split; [done|]. split; [lia | done].
Qed.

Lemma droplink_debits_cost_and_adds_link_witness :
  (balance (run (on_droplink 7 (text_message 1 9 "") (js "http://x") (js "T"))
                (world_with 1 (row_with 1000 5 1))) 1 = Some 0 ∧
   link_count (run (on_droplink 7 (text_message 1 9 "") (js "http://x") (js "T"))
                (world_with 1 (row_with 1000 5 1))) = 1%nat) ∧
  (balance (run (on_droplink 7 (text_message 1 9 "") (js "http://x") (js "T"))
                (world_with 1 (row_with 999 5 1))) 1 = Some 999 ∧
   link_count (run (on_droplink 7 (text_message 1 9 "") (js "http://x") (js "T"))
                (world_with 1 (row_with 999 5 1))) = 0%nat).
Proof.
  split.
  - pose proof (droplink_debits_cost_and_adds_link 7 (text_message 1 9 "")
      (js "http://x") (js "T") (world_with 1 (row_with 1000 5 1))
      (row_with 1000 5 1) eq_refl) as (_ & Hs & _).
    destruct Hs as (Hb & Hc & _); [cbn; lia|]. split; [exact Hb | exact Hc].
  - pose proof (droplink_debits_cost_and_adds_link 7 (text_message 1 9 "")
      (js "http://x") (js "T") (world_with 1 (row_with 999 5 1))
      (row_with 999 5 1) eq_refl) as (_ & _ & Hf).
    destruct Hf as (Hb & Hc & _); [cbn; lia|]. split; [exact Hb | exact Hc].
Defined.

(** C9: a /droplink callback run for a user whose balance is below 1000
    changes no table: the record of that user keeps every field, among them
    last_active and warned, the record of every other user is the same, and
    so is the links table; the only effect is the rejection message. *)
Theorem droplink_failure_frame now msg m1 m2 w r :
  users (db w) !! from_id msg = Some r →
  points r < 1000 →
  let w' := run (on_droplink now msg m1 m2) w in
  users (db w') !! from_id msg = Some r ∧
  (∀ id, users (db w') !! id = users (db w) !! id) ∧
  db w' = db w ∧
  sent w' = sent w ++ [SendMessage (chat_id msg) (NotEnoughPoints 1000 (points r))].
Proof.
  intros H Hlt w'. subst w'. unfold run.
  rewrite (on_droplink_failure _ _ _ _ _ _ H Hlt). cbn [snd db sent].
  by rewrite H.
Qed.

Lemma droplink_failure_frame_witness :
  users (db (run (on_droplink 7 (text_message 1 9 "") (js "http://x") (js "T"))
                 (world_with 1 (row_with 999 5 1)))) !! 1 = Some (row_with 999 5 1).
Proof.
  refine (proj1 (droplink_failure_frame 7 (text_message 1 9 "") (js "http://x") (js "T")
            (world_with 1 (row_with 999 5 1)) (row_with 999 5 1) eq_refl _)).
  cbn. lia.
Defined.

(** ** The trigger of /droplink *)

(** C2: on the text [/droplink http://x My Title] the regular expression of
    the trigger captures [http://x My] as the url and [Title] as the title:
    the first group is greedy and gives back only as far as the last space.
    Dispatching that message for a user with 1000 points stores one link
    row with exactly these two fields. *)
Theorem droplink_regex_splits_at_last_space :
  exec re_droplink (js "/droplink http://x My Title")
    = Some [js "http://x My"; js "Title"] ∧
  links (db (run (process 7 None
                    (Message (text_message 1 9 "/droplink http://x My Title") None))
                 (world_with 1 (row_with 1000 5 0))))
    = [{| link_id := 1; user_id := 1; url := js "http://x My";
          title := js "Title"; created_at := 7 |}].
Proof. split; vm_compute; reflexivity. Qed.

(** ** Button presses *)

Lemma earned_like : earned_for (js "like") = JNum 200.
Proof. reflexivity. Qed.
Lemma earned_comment : earned_for (js "comment") = JNum 350.
Proof. reflexivity. Qed.
Lemma earned_repost : earned_for (js "repost") = JNum 500.
Proof. reflexivity. Qed.

Lemma earned_unknown action :
  action ≠ js "like" → action ≠ js "comment" → action ≠ js "repost" →
  action ∉ object_prototype_keys →
  earned_for action = JNum 0.
Proof.
  intros H1 H2 H3 H4. unfold earned_for, pointsMap_get.
  repeat case_decide; try done.
Qed.

Lemma earned_inherited action :
  action ∈ object_prototype_keys → earned_for action = JObject.
Proof.
  unfold object_prototype_keys. intros H.
  repeat (apply elem_of_cons in H as [->|H]; [by vm_compute|]).
  by apply elem_of_nil in H.
Qed.

(** A press whose [earned] is a number: the user is credited and touched,
    the press is acknowledged and the amount is broadcast. *)
Lemma on_callback_query_number now query w r n :
  users (db w) !! cq_from_id query = Some r →
  earned_for (split_head (cq_data query)) = JNum n →
  on_callback_query now query w =
    (Ok tt,
     {| db := with_users (insert (cq_from_id query)
                            (touch now (set_points (points r + n) r))) (db w);
        sent := sent w ++
          [AnswerCallbackQuery (cq_id query) (JNum n);
           SendMessage (cq_chat_id query) (Earned (str_or (Some (username r)) (js "User")) (JNum n))] |}).
Proof.
  intros H He. unfold on_callback_query.
  unfold mbind at 1, M_bind at 1.
  rewrite (getUser_existing _ _ _ _ _ H).
  fold (earned_for (split_head (cq_data query))). rewrite He.
  cbn [user_of_row u_points u_id u_username].
  run_handler. rewrite <- app_assoc. do 3 f_equal.
  apply map_eq; intros j. destruct (decide (cq_from_id query = j)) as [<-|Hne].
  - by rewrite lookup_alter_eq, lookup_alter_eq, lookup_insert_eq, H.
  - by rewrite !lookup_alter_ne, lookup_insert_ne.
Qed.

(** A press whose [earned] is not a number: [addPoints] throws when it
    binds it, after [getUser] and before everything else. *)
Lemma on_callback_query_object now query w :
  earned_for (split_head (cq_data query)) = JObject →
  on_callback_query now query w =
    (Throw TypeError,
     (getUser now (cq_from_id query) (cq_from_username query) w).2).
Proof.
  intros He. unfold on_callback_query.
  unfold mbind at 1, M_bind at 1.
  destruct (getUser_returns now (cq_from_id query) (cq_from_username query) w) as [u Hu].
  destruct (getUser now (cq_from_id query) (cq_from_username query) w) as [res w1].
  cbn [fst snd] in *. subst res.
  fold (earned_for (split_head (cq_data query))). rewrite He.
  reflexivity.
Qed.

(** C3: a press with data [constructor_1] has action kind [constructor],
    which is none of like, comment and repost.  The lookup in the points
    table finds the inherited property of that name, so the reward is not 0
    but an object, and the handler throws when the statement of [addPoints]
    binds it.  (The three recognised kinds earn 200, 350 and 500; see
    [earned_like], [earned_comment], [earned_repost] and
    [on_callback_query_number].) *)
Theorem callback_inherited_kind_throws now from chat w :
  let query := press from chat "constructor_1" in
  split_head (cq_data query) = js "constructor" ∧
  earned_for (split_head (cq_data query)) = JObject ∧
  (on_callback_query now query w).1 = Throw TypeError.
Proof.
  intros query. split; [reflexivity|]. split; [reflexivity|].
  by rewrite on_callback_query_object.
Qed.

(** C10: a press with data [constructor_1] by a known user leaves that
    user's record as it was, last_active and warned included, and sends
    neither the acknowledgment nor the broadcast: the handler throws in
    [addPoints], before [updateActivity] and the two calls on the client. *)
Theorem callback_inherited_kind_skips_activity now from chat w r :
  users (db w) !! from = Some r →
  let w' := run (on_callback_query now (press from chat "constructor_1")) w in
  users (db w') !! from = Some r ∧ sent w' = sent w.
Proof.
  intros H w'. subst w'. unfold run.
  rewrite on_callback_query_object by reflexivity.
  change (cq_from_id (press from chat "constructor_1")) with from.
  by rewrite (getUser_existing _ _ _ _ _ H).
Qed.

Lemma callback_inherited_kind_skips_activity_witness :
  users (db (run (on_callback_query 172807 (press 1 9 "constructor_1"))
                 (world_with 1 (row_with 0 5 1)))) !! 1 = Some (row_with 0 5 1) ∧
  sent (run (on_callback_query 172807 (press 1 9 "constructor_1"))
            (world_with 1 (row_with 0 5 1))) = [].
Proof.
  exact (callback_inherited_kind_skips_activity 172807 1 9
           (world_with 1 (row_with 0 5 1)) (row_with 0 5 1) eq_refl).
Defined.

(** ** The inactivity sweeps *)

Section loops.
Context (f : user_row → user_row) (t : text).

Lemma alter_all_lookup (l : list (Z * user_row)) m id :
  NoDup l.*1 →
  alter_all f l m !! id = if decide (id ∈ l.*1) then f <$> m !! id else m !! id.
Proof.
  revert m. induction l as [|[k r] l IH]; intros m Hnd; [done|].
  apply NoDup_cons in Hnd as [Hk Hnd]. cbn [alter_all foldl fst].
  fold (alter_all f l (alter f k m)). rewrite (IH _ Hnd). cbn [fmap list_fmap fst].
  destruct (decide (id = k)) as [->|Hne].
  - rewrite decide_False by done. rewrite decide_True by left.
    apply lookup_alter_eq.
  - rewrite lookup_alter_ne by done.
    destruct (decide (id ∈ l.*1)) as [Hin|Hin].
    + by rewrite decide_True by (by right).
    + rewrite decide_False; [done|]. by intros [?|?]%elem_of_cons.
Qed.

Lemma count_call_sends (l : list (Z * user_row)) id :
  NoDup l.*1 →
  count_call (SendMessage id t) ((λ u, SendMessage u.1 t) <$> l)
    = if decide (id ∈ l.*1) then 1%nat else 0%nat.
Proof.
  unfold count_call.
  induction l as [|[k r] l IH]; intros Hnd; [done|].
  rewrite !fmap_cons in *. cbn [fst] in *.
  apply NoDup_cons in Hnd as [Hk Hnd].
  rewrite filter_cons. destruct (decide (id = k)) as [->|Hne].
  - rewrite decide_True by done. rewrite decide_True by left.
    cbn [length]. rewrite (IH Hnd). by rewrite decide_False.
  - rewrite decide_False by congruence. rewrite (IH Hnd).
    destruct (decide (id ∈ l.*1)) as [Hin|Hin].
    + by rewrite decide_True by (by right).
    + rewrite decide_False; [done|]. by intros [?|?]%elem_of_cons.
Qed.
End loops.

Lemma with_users_id d : with_users (λ m, m) d = d.
Proof. by destruct d. Qed.

Lemma warn_loop l w :
  forEach l (λ u, sendMessage u.1 InactivityWarning ;; update_user u.1 (set_warned 1)) w
  = (Ok tt,
     {| db := with_users (alter_all (set_warned 1) l) (db w);
        sent := sent w ++ ((λ u, SendMessage u.1 InactivityWarning) <$> l) |}).
Proof.
  revert w. induction l as [|u l IH]; intros [d s].
  - cbn. unfold mret, M_ret. by rewrite app_nil_r, with_users_id.
  - cbn [forEach]. run_handler. rewrite IH. cbn [db sent fmap list_fmap].
    by rewrite <- app_assoc.
Qed.

Lemma penalty_loop l w :
  forEach l (λ u, deductPoints u.1 (JNum 100) ;; sendMessage u.1 InactivityPenalty) w
  = (Ok tt,
     {| db := with_users (alter_all (λ r, set_points (points r - 100) r) l) (db w);
        sent := sent w ++ ((λ u, SendMessage u.1 InactivityPenalty) <$> l) |}).
Proof.
  revert w. induction l as [|u l IH]; intros [d s].
  - cbn. unfold mret, M_ret. by rewrite app_nil_r, with_users_id.
  - cbn [forEach]. run_handler. rewrite IH. cbn [db sent fmap list_fmap].
    by rewrite <- app_assoc.
Qed.

Section selection.
Context (P : Z * user_row → Prop) `{!∀ u, Decision (P u)}.

Lemma selected_keys_NoDup (m : gmap Z user_row) :
  NoDup (filter P (map_to_list m)).*1.
Proof.
  pose proof (NoDup_fst_map_to_list m) as Hnd.
  induction (map_to_list m) as [|u l IH]; [constructor|].
  cbn [fmap list_fmap] in Hnd. apply NoDup_cons in Hnd as [Hu Hnd].
  rewrite filter_cons. destruct (decide (P u)); [|by apply IH].
  cbn [fmap list_fmap]. apply NoDup_cons. split; [|by apply IH].
  intros (v & Hv1 & Hv2)%list_elem_of_fmap. apply Hu.
  apply list_elem_of_fmap. exists v. split; [done|].
  by apply list_elem_of_filter in Hv2 as [_ ?].
Qed.

Lemma selected_key (m : gmap Z user_row) id r :
  m !! id = Some r →
  id ∈ (filter P (map_to_list m)).*1 ↔ P (id, r).
Proof.
  intros Hr. rewrite list_elem_of_fmap. split.
  - intros ([k r'] & -> & [HP Hin]%list_elem_of_filter).
    apply elem_of_map_to_list in Hin. cbn [fst] in *.
    rewrite Hin in Hr. by injection Hr as ->.
  - intros HP. exists (id, r). split; [done|].
    apply list_elem_of_filter. split; [done|]. by apply elem_of_map_to_list.
Qed.
End selection.

Lemma warn_job_run now w :
  warn_job now w =
    (Ok tt,
     {| db := with_users (alter_all (set_warned 1) (select_warn now (db w))) (db w);
        sent := sent w ++
          ((λ u, SendMessage u.1 InactivityWarning) <$> select_warn now (db w)) |}).
Proof. unfold warn_job. run_handler. apply warn_loop. Qed.

Lemma penalty_job_run now w :
  penalty_job now w =
    (Ok tt,
     {| db := with_users (alter_all (λ r, set_points (points r - 100) r)
                            (select_penalty now (db w))) (db w);
        sent := sent w ++
          ((λ u, SendMessage u.1 InactivityPenalty) <$> select_penalty now (db w)) |}).
Proof. unfold penalty_job. run_handler. apply penalty_loop. Qed.

(** What one tick of the warn job does to one user. *)
Lemma warn_job_user now w id r :
  users (db w) !! id = Some r →
  let w' := run (warn_job now) w in
  if decide (warned r = 0 ∧ elapsed now r > 172800)
  then users (db w') !! id = Some (set_warned 1 r) ∧ warnings_to id (new_calls w w') = 1%nat
  else users (db w') !! id = Some r ∧ warnings_to id (new_calls w w') = 0%nat.
Proof.
  intros Hr w'. subst w'. unfold run, new_calls, warnings_to, select_warn.
  rewrite warn_job_run. cbn [snd db sent users with_users].
  rewrite drop_app_length. unfold select_warn.
  set (P := λ u : Z * user_row, warned u.2 = 0 ∧ elapsed now u.2 > 172800).
  rewrite (alter_all_lookup _ _ _ _ (selected_keys_NoDup P _)).
  rewrite (count_call_sends _ _ _ (selected_keys_NoDup P _)).
  pose proof (selected_key P _ _ _ Hr) as Hsel. unfold P in Hsel at 2. cbn [snd] in Hsel.
  destruct (decide (warned r = 0 ∧ elapsed now r > 172800)) as [Hq|Hq].
  - rewrite !decide_True by (by apply Hsel). by rewrite Hr.
  - rewrite !decide_False by (by rewrite Hsel). done.
Qed.

(** What one tick of the penalty job does to one user. *)
Lemma penalty_job_user now w id r :
  users (db w) !! id = Some r →
  let w' := run (penalty_job now) w in
  if decide (elapsed now r > 259200)
  then users (db w') !! id = Some (set_points (points r - 100) r)
       ∧ penalties_to id (new_calls w w') = 1%nat
  else users (db w') !! id = Some r ∧ penalties_to id (new_calls w w') = 0%nat.
Proof.
  intros Hr w'. subst w'. unfold run, new_calls, penalties_to, select_penalty.
  rewrite penalty_job_run. cbn [snd db sent users with_users].
  rewrite drop_app_length. unfold select_penalty.
  set (P := λ u : Z * user_row, elapsed now u.2 > 259200).
  rewrite (alter_all_lookup _ _ _ _ (selected_keys_NoDup P _)).
  rewrite (count_call_sends _ _ _ (selected_keys_NoDup P _)).
  pose proof (selected_key P _ _ _ Hr) as Hsel. unfold P in Hsel at 2. cbn [snd] in Hsel.
  destruct (decide (elapsed now r > 259200)) as [Hq|Hq].
  - rewrite !decide_True by (by apply Hsel). by rewrite Hr.
  - rewrite !decide_False by (by rewrite Hsel). done.
Qed.

Lemma updateActivity_user t w id r :
  users (db w) !! id = Some r →
  users (db (run (updateActivity t id) w)) !! id = Some (touch t r).
Proof.
  intros Hr. unfold run. run_handler. by rewrite lookup_alter_eq, Hr.
Qed.

Lemma warn_job_returns now w : returns (warn_job now) w.
Proof. exists tt. unfold returns. by rewrite warn_job_run. Qed.

Lemma penalty_job_sent now w :
  sent (run (penalty_job now) w)
  = sent w ++ new_calls w (run (penalty_job now) w).
Proof.
  unfold new_calls, run. rewrite penalty_job_run. cbn [snd sent].
  by rewrite drop_app_length.
Qed.

Lemma count_call_app c l1 l2 :
  count_call c (l1 ++ l2) = (count_call c l1 + count_call c l2)%nat.
Proof. unfold count_call. by rewrite filter_app, length_app. Qed.

Lemma penalty_ticks_user ticks : ∀ w id r,
  users (db w) !! id = Some r →
  Forall (λ t, elapsed t r > 259200) ticks →
  users (db (penalty_ticks ticks w)) !! id
    = Some (set_points (points r - 100 * Z.of_nat (length ticks)) r) ∧
  ∃ new, sent (penalty_ticks ticks w) = sent w ++ new ∧
         penalties_to id new = length ticks.
Proof.
  induction ticks as [|t ticks IH]; intros w id r Hr Hall.
  - cbn. split.
    + rewrite Hr. f_equal. destruct r. unfold set_points. cbn. f_equal. lia.
    + exists []. by rewrite app_nil_r.
  - apply Forall_cons in Hall as [Ht Hall].
    pose proof (penalty_job_user t w id r Hr) as Hu. cbn zeta in Hu.
    rewrite decide_True in Hu by done. destruct Hu as [Hr1 Hc1].
    destruct (IH (run (penalty_job t) w) id _ Hr1 Hall) as [Hrow (new & Hsent & Hcount)].
    cbn [penalty_ticks foldl]. fold (penalty_ticks ticks (run (penalty_job t) w)).
    split.
    + rewrite Hrow. unfold set_points. cbn. do 2 f_equal. lia.
    + exists (new_calls w (run (penalty_job t) w) ++ new). split.
      * by rewrite Hsent, penalty_job_sent, <- app_assoc.
      * unfold penalties_to in *. rewrite count_call_app, Hc1, Hcount. done.
Qed.

(** C5 (as the code has it): a warn-job tick sends exactly one warning to,
    and sets warned on, every user whose warned flag is clear and whose
    inactivity is more than 172800 seconds; a user whose flag is already
    set, or whose inactivity is 172800 seconds or less, gets no warning and
    keeps the record.  [updateActivity] clears the flag and restarts the
    clock: a tick no more than 172800 seconds after it does not warn, a tick
    later than that warns once again. *)
Theorem warn_job_warns_once now w id r :
  users (db w) !! id = Some r →
  let w' := run (warn_job now) w in
  returns (warn_job now) w ∧
  (warned r = 0 → elapsed now r > 172800 →
     warnings_to id (new_calls w w') = 1%nat ∧
     users (db w') !! id = Some (set_warned 1 r)) ∧
  (warned r ≠ 0 ∨ elapsed now r ≤ 172800 →
     warnings_to id (new_calls w w') = 0%nat ∧
     users (db w') !! id = Some r) ∧
  (∀ t, let w1 := run (updateActivity t id) w in
        let w2 := run (warn_job now) w1 in
        users (db w1) !! id = Some (touch t r) ∧
        warned (touch t r) = 0 ∧
        (now - t ≤ 172800 →
           warnings_to id (new_calls w1 w2) = 0%nat ∧
           users (db w2) !! id = Some (touch t r)) ∧
        (now - t > 172800 →
           warnings_to id (new_calls w1 w2) = 1%nat ∧
           users (db w2) !! id = Some (set_warned 1 (touch t r)))).
Proof.
  intros Hr w'. subst w'. split; [apply warn_job_returns|].
  pose proof (warn_job_user now w id r Hr) as Hu. cbn zeta in Hu.
  split; [|split].
  - intros Hw He. rewrite decide_True in Hu by done. by destruct Hu.
  - intros Hq. rewrite decide_False in Hu by (intros [? ?]; destruct Hq; lia).
    by destruct Hu.
  - intros t w1 w2. subst w1 w2.
    pose proof (updateActivity_user t w id r Hr) as Hr1.
    pose proof (warn_job_user now _ id _ Hr1) as Hu1. cbn zeta in Hu1.
    split; [done|]. split; [done|]. unfold elapsed in Hu1. cbn [touch warned last_active] in Hu1.
    split; intros Ht.
    + rewrite decide_False in Hu1 by lia. by destruct Hu1.
    + rewrite decide_True in Hu1 by done. by destruct Hu1.
Qed.

Lemma warn_job_warns_once_witness :
  warnings_to 1 (new_calls (world_with 1 (row_with 0 0 0))
                   (run (warn_job 172801) (world_with 1 (row_with 0 0 0)))) = 1%nat ∧
  users (db (run (warn_job 172801) (world_with 1 (row_with 0 0 0)))) !! 1
    = Some (row_with 0 0 1).
Proof.
  pose proof (warn_job_warns_once 172801 (world_with 1 (row_with 0 0 0)) 1
                (row_with 0 0 0) eq_refl) as (_ & H & _).
  apply H; [reflexivity | unfold elapsed; cbn; lia].
Defined.

(** A user inactive for exactly 172800 seconds, with the warned flag clear:
    the warn job sends no warning and leaves the flag clear. *)
Lemma warn_job_at_172800_does_not_warn :
  let r := row_with 0 0 0 in
  let w := world_with 1 r in
  let w' := run (warn_job 172800) w in
  users (db w) !! 1 = Some r ∧ warned r = 0 ∧ 172800 ≤ elapsed 172800 r ∧
  warnings_to 1 (new_calls w w') = 0%nat ∧
  sent w' = [] ∧
  users (db w') !! 1 = Some r.
Proof.
  cbn zeta. split; [reflexivity|]. split; [reflexivity|].
  split; [unfold elapsed; cbn; lia|]. by vm_compute.
Qed.

(** C6 (as the code has it): every penalty-job tick at which a user's
    inactivity is more than 259200 seconds deducts exactly 100 points from
    that user and sends one penalty message, whatever the warned flag is;
    the tick changes neither last_active nor warned, so over any run of
    ticks at which the user is past the threshold the user loses 100 points
    per tick. *)
Theorem penalty_job_every_tick ticks w id r :
  users (db w) !! id = Some r →
  Forall (λ t, elapsed t r > 259200) ticks →
  let w' := penalty_ticks ticks w in
  users (db w') !! id
    = Some {| username := username r;
              points := points r - 100 * Z.of_nat (length ticks);
              last_active := last_active r; warned := warned r |} ∧
  penalties_to id (new_calls w w') = length ticks.
Proof.
  intros Hr Hall w'. subst w'.
  destruct (penalty_ticks_user ticks w id r Hr Hall) as [Hrow (new & Hsent & Hcount)].
  split; [exact Hrow|].
  unfold new_calls. by rewrite Hsent, drop_app_length.
Qed.

Lemma penalty_job_every_tick_witness :
  users (db (penalty_ticks [259201; 261001; 262801] (world_with 1 (row_with 150 0 1)))) !! 1
    = Some (row_with (-150) 0 1) ∧
  penalties_to 1 (new_calls (world_with 1 (row_with 150 0 1))
     (penalty_ticks [259201; 261001; 262801] (world_with 1 (row_with 150 0 1)))) = 3%nat.
Proof.
  apply (penalty_job_every_tick [259201; 261001; 262801]
           (world_with 1 (row_with 150 0 1)) 1 (row_with 150 0 1) eq_refl).
  repeat constructor; unfold elapsed; cbn; lia.
Defined.

(** A user inactive for exactly 259200 seconds: the penalty job deducts
    nothing and sends nothing. *)
Lemma penalty_job_at_259200_does_not_deduct :
  let r := row_with 150 0 1 in
  let w := world_with 1 r in
  let w' := run (penalty_job 259200) w in
  users (db w) !! 1 = Some r ∧ 259200 ≤ elapsed 259200 r ∧
  balance w' 1 = Some 150 ∧
  penalties_to 1 (new_calls w w') = 0%nat ∧
  sent w' = [].
Proof.
  cbn zeta. split; [reflexivity|]. split; [unfold elapsed; cbn; lia|]. by vm_compute.
Qed.

(** ** Browsing *)

#[global] Instance newer_or_same_total : Total newer_or_same.
Proof. intros a b. unfold newer_or_same. lia. Qed.

#[global] Instance newer_or_same_trans : Transitive newer_or_same.
Proof. intros a b c. unfold newer_or_same. lia. Qed.

Lemma StronglySorted_take {A} (R : relation A) n l :
  StronglySorted R l → StronglySorted R (take n l).
Proof.
  intros H. revert n. induction H as [|x l Hl IH Hx]; intros [|n]; cbn; try constructor.
  - apply IH.
  - apply Forall_forall. intros y Hy. rewrite Forall_forall in Hx. apply Hx.
    by apply (subseteq_take n).
Qed.

(** C4 (as the code has it): the query of /browse returns at most 10 links,
    all of them rows of the table, newest first: each returned link was
    created no earlier than every link returned after it, and no earlier than
    every link of the table that is left out.  Links created within the same
    second have equal creation times and come in either order. *)
Theorem recent_links_newest_first d :
  let r := recent_links d in
  (length r ≤ 10)%nat ∧
  length r = (10 `min` length (links d))%nat ∧
  newest_first r ∧
  (∀ l, l ∈ r → l ∈ links d) ∧
  (∀ old l, old ∈ links d → old ∉ r → l ∈ r → created_at old ≤ created_at l).
Proof.
  intros r. subst r. unfold recent_links, newest_first.
  set (s := merge_sort newer_or_same (links d)).
  assert (StronglySorted newer_or_same s) as Hs
    by (apply StronglySorted_merge_sort; apply _).
  assert (s ≡ₚ links d) as Hp by apply merge_sort_Permutation.
  split; [rewrite length_take; lia|].
  split; [by rewrite length_take, Hp|].
  split; [by apply StronglySorted_take|].
  split.
  - intros l Hl. rewrite <- Hp. by apply (subseteq_take 10).
  - intros old l Hold Hnot Hl.
    rewrite <- Hp, <- (take_drop 10 s) in Hold.
    apply elem_of_app in Hold as [Hold|Hold]; [done|].
    rewrite <- (take_drop 10 s) in Hs.
    apply (StronglySorted_app_1_elem_of _ _ _ l old Hs); done.
Qed.

(** After two posts within one second the query returns both links, and
    they are not strictly ordered by creation time. *)
Lemma recent_links_same_second_not_strict :
  length (recent_links (db same_second_posts)) = 2%nat ∧
  ¬ strictly_newest_first (recent_links (db same_second_posts)).
Proof.
  assert (recent_links (db same_second_posts) =
            [ {| link_id := 1; user_id := 1; url := js "http://a"; title := js "A";
                 created_at := 7 |};
              {| link_id := 2; user_id := 2; url := js "http://b"; title := js "B";
                 created_at := 7 |} ]) as -> by (by vm_compute).
  split; [reflexivity|].
  unfold strictly_newest_first. intros H.
  apply StronglySorted_inv in H as [_ H].
  apply Forall_cons in H as [H _]. cbn in H. lia.
Qed.

Lemma forEach_send_db {A} (l : list A) (chat : Z) (t : A → text) w :
  forEach l (λ x, sendMessage chat (t x)) w
  = (Ok tt, {| db := db w; sent := sent w ++ ((λ x, SendMessage chat (t x)) <$> l) |}).
Proof.
  revert w. induction l as [|x l IH]; intros [d s].
  - cbn. unfold mret, M_ret. by rewrite app_nil_r.
  - cbn [forEach]. run_handler. rewrite IH. cbn [db sent fmap list_fmap].
    by rewrite <- app_assoc.
Qed.

Lemma on_browse_db msg w :
  ∃ calls, on_browse msg w = (Ok tt, {| db := db w; sent := sent w ++ calls |}).
Proof.
  unfold on_browse. run_handler. case_decide.
  - by eexists.
  - eexists. apply forEach_send_db.
Qed.

(** ** Statistics *)

Lemma total_points_empty : total_points ∅ = 0.
Proof. apply map_fold_empty. Qed.

Lemma total_points_insert m id r :
  m !! id = None → total_points (<[id := r]> m) = points r + total_points m.
Proof.
  intros H. unfold total_points. rewrite map_fold_insert_L; [done| |done].
  intros. lia.
Qed.

Lemma or_zero_sum_points m : or_zero (sum_points m) = total_points m.
Proof.
  unfold sum_points. case_decide as He.
  - subst. by rewrite total_points_empty.
  - unfold or_zero. fold (total_points m). destruct (Z.eqb_spec (total_points m) 0); lia.
Qed.

(** C7: the /stats callback run for a sender whose identity, as a string,
    differs from the configured administrator identity returns at once: no
    call on the client and the same world.  For the administrator it sends
    one message with the number of users, the number of links and the sum
    of all balances, and changes no table; the sum over an empty users table
    is 0. *)
Theorem stats_admin_only admin_id msg w :
  (String_of_int (from_id msg) ≠ String_of_env admin_id →
     on_stats admin_id msg w = (Ok tt, w)) ∧
  (String_of_int (from_id msg) = String_of_env admin_id →
     on_stats admin_id msg w =
       (Ok tt,
        {| db := db w;
           sent := sent w ++
             [SendMessage (chat_id msg)
                (BotStats (Z.of_nat (size (users (db w))))
                          (Z.of_nat (length (links (db w))))
                          (total_points (users (db w))))] |})) ∧
  or_zero (sum_points ∅) = 0.
Proof.
  split; [|split].
  - intros Hne. unfold on_stats. by rewrite decide_True.
  - intros He. unfold on_stats. rewrite decide_False by (by intros ?).
    run_handler. by rewrite or_zero_sum_points.
  - reflexivity.
Qed.

Lemma stats_admin_only_witness :
  on_stats (Some (js "42")) (text_message 7 9 "/stats") (world_with 7 (row_with 30 0 0))
    = (Ok tt, world_with 7 (row_with 30 0 0)) ∧
  on_stats (Some (js "42")) (text_message 42 9 "/stats") (world_with 7 (row_with 30 0 0))
    = (Ok tt, {| db := db (world_with 7 (row_with 30 0 0));
                 sent := [SendMessage 9 (BotStats 1 0 30)] |}).
Proof.
  split.
  - apply (stats_admin_only (Some (js "42")) (text_message 7 9 "/stats")
             (world_with 7 (row_with 30 0 0))).
    by vm_compute.
  - pose proof (stats_admin_only (Some (js "42")) (text_message 42 9 "/stats")
             (world_with 7 (row_with 30 0 0))) as (_ & H & _).
    rewrite H by reflexivity. reflexivity.
Defined.

(** ** Which updates resolve their sender *)

Lemma frames_keeps {A} (m : M A) : frames_users m → keeps_users m.
Proof. intros H w id. by rewrite H. Qed.

Lemma keeps_bind {A B} (m : M A) (k : A → M B) :
  keeps_users m → (∀ a, keeps_users (k a)) → keeps_users (m ≫= k).
Proof.
  intros Hm Hk w id Hid. specialize (Hm w id Hid). unfold run, mbind, M_bind in *.
  destruct (m w) as [[a|e] w1]; cbn [snd] in *; [|done]. by apply Hk.
Qed.

Lemma frames_bind {A B} (m : M A) (k : A → M B) :
  frames_users m → (∀ a, frames_users (k a)) → frames_users (m ≫= k).
Proof.
  intros Hm Hk w. specialize (Hm w). unfold run, mbind, M_bind in *.
  destruct (m w) as [[a|e] w1]; cbn [snd] in *; [|done]. rewrite <- Hm. apply Hk.
Qed.

Lemma total_bind {A B} (m : M A) (k : A → M B) :
  total m → (∀ a, total (k a)) → total (m ≫= k).
Proof.
  intros Hm Hk w. destruct (Hm w) as [a Ha]. unfold returns, mbind, M_bind in *.
  destruct (m w) as [res w1]; cbn [fst] in *. subst res. apply Hk.
Qed.

Lemma resolves_bind_l {A B} id (m : M A) (k : A → M B) :
  resolves id m → (∀ a, keeps_users (k a)) → resolves id (m ≫= k).
Proof.
  intros Hm Hk w. specialize (Hm w). unfold run, mbind, M_bind in *.
  destruct (m w) as [[a|e] w1]; cbn [snd] in *; [|done]. by apply Hk.
Qed.

Lemma resolves_bind_r {A B} id (m : M A) (k : A → M B) :
  total m → (∀ a, resolves id (k a)) → resolves id (m ≫= k).
Proof.
  intros Hm Hk w. destruct (Hm w) as [a Ha]. unfold run, returns, mbind, M_bind in *.
  destruct (m w) as [res w1]; cbn [fst] in *. subst res. apply Hk.
Qed.

Lemma frames_mret {A} (a : A) : frames_users (mret a).
Proof. done. Qed.
Lemma total_mret {A} (a : A) : total (mret a).
Proof. intros w. by exists a. Qed.
Lemma frames_emit c : frames_users (emit c).
Proof. done. Qed.
Lemma total_emit c : total (emit c).
Proof. intros w. by exists tt. Qed.
Lemma frames_bind_number v : frames_users (bind_number v).
Proof. by destruct v. Qed.
Lemma frames_insert_link now uid u t : frames_users (insert_link now uid u t).
Proof. done. Qed.

Lemma keeps_update_user id f : keeps_users (update_user id f).
Proof.
  intros w j Hj. unfold run. rewrite update_user_run. cbn [snd db users with_users].
  apply lookup_alter_is_Some, Hj.
Qed.

Lemma total_getUser now id uname : total (getUser now id uname).
Proof. intros w. apply getUser_returns. Qed.

Lemma keeps_getUser now id uname : keeps_users (getUser now id uname).
Proof.
  intros w j Hj. unfold run. destruct (users (db w) !! id) as [r|] eqn:H.
  - by rewrite (getUser_existing _ _ _ _ _ H).
  - rewrite (getUser_new _ _ _ _ H). cbn [snd db users with_users].
    rewrite lookup_insert_is_Some. destruct (decide (id = j)); auto.
Qed.

Lemma resolves_getUser now id uname : resolves id (getUser now id uname).
Proof.
  intros w. unfold run. destruct (users (db w) !! id) as [r|] eqn:H.
  - rewrite (getUser_existing _ _ _ _ _ H). cbn [snd]. by rewrite H.
  - rewrite (getUser_new _ _ _ _ H). cbn [snd db users with_users].
    by rewrite lookup_insert_eq.
Qed.

Lemma frames_forEach_send {A} (l : list A) chat (t : A → text) :
  frames_users (forEach l (λ x, sendMessage chat (t x))).
Proof. intros w. unfold run. by rewrite forEach_send_db. Qed.

Lemma frames_on_browse msg : frames_users (on_browse msg).
Proof. intros w. unfold run. by destruct (on_browse_db msg w) as [calls ->]. Qed.

Lemma frames_on_stats admin_id msg : frames_users (on_stats admin_id msg).
Proof. intros w. unfold on_stats. by case_decide. Qed.

Lemma frames_on_message_end msg assistant : frames_users (on_message_end msg assistant).
Proof. intros w. unfold on_message_end. by destruct (skipped _), assistant. Qed.

Lemma keeps_on_start now msg : keeps_users (on_start now msg).
Proof.
  apply keeps_bind; [apply keeps_getUser|]. intros u. apply frames_keeps, frames_emit.
Qed.
Lemma total_on_start now msg : total (on_start now msg).
Proof. apply total_bind; [apply total_getUser|]. intros u. apply total_emit. Qed.
Lemma resolves_on_start now msg : resolves (from_id msg) (on_start now msg).
Proof.
  apply resolves_bind_l; [apply resolves_getUser|].
  intros u. apply frames_keeps, frames_emit.
Qed.

Lemma keeps_on_profile now msg : keeps_users (on_profile now msg).
Proof.
  apply keeps_bind; [apply keeps_getUser|]. intros u. apply frames_keeps, frames_emit.
Qed.
Lemma total_on_profile now msg : total (on_profile now msg).
Proof. apply total_bind; [apply total_getUser|]. intros u. apply total_emit. Qed.
Lemma resolves_on_profile now msg : resolves (from_id msg) (on_profile now msg).
Proof.
  apply resolves_bind_l; [apply resolves_getUser|].
  intros u. apply frames_keeps, frames_emit.
Qed.

Lemma keeps_after_getUser_droplink now msg m1 m2 (u : user) :
  keeps_users
    (if u_points u <? cost then
       sendMessage (chat_id msg) (NotEnoughPoints cost (u_points u))
     else
       deductPoints (u_id u) (JNum cost) ;;
       insert_link now (u_id u) m1 m2 ;;
       updateActivity now (u_id u) ;;
       sendMessage (chat_id msg) (LinkPosted m2 m1)).
Proof.
  destruct (u_points u <? cost); [apply frames_keeps, frames_emit|].
  apply keeps_bind; [|intros _; apply keeps_bind; [|intros _; apply keeps_bind]].
  - apply keeps_bind; [apply frames_keeps, frames_bind_number|].
    intros a. apply keeps_update_user.
  - apply frames_keeps, frames_insert_link.
  - apply keeps_update_user.
  - intros _. apply frames_keeps, frames_emit.
Qed.

Lemma keeps_on_droplink now msg m1 m2 : keeps_users (on_droplink now msg m1 m2).
Proof.
  apply keeps_bind; [apply keeps_getUser|]. apply keeps_after_getUser_droplink.
Qed.
Lemma resolves_on_droplink now msg m1 m2 :
  resolves (from_id msg) (on_droplink now msg m1 m2).
Proof.
  apply resolves_bind_l; [apply resolves_getUser|]. apply keeps_after_getUser_droplink.
Qed.

Lemma resolves_on_callback_query now query :
  resolves (cq_from_id query) (on_callback_query now query).
Proof.
  apply resolves_bind_l; [apply resolves_getUser|]. intros u.
  apply keeps_bind; [|intros _; apply keeps_bind; [|intros _; apply keeps_bind]].
  - apply keeps_bind; [apply frames_keeps, frames_bind_number|].
    intros a. apply keeps_update_user.
  - apply keeps_update_user.
  - apply frames_keeps, frames_emit.
  - intros _. apply frames_keeps, frames_emit.
Qed.

Lemma keeps_on_message_begin now msg : keeps_users (on_message_begin now msg).
Proof.
  unfold on_message_begin. destruct (skipped _); [apply frames_keeps, frames_mret|].
  apply keeps_bind; [apply keeps_getUser|]. intros u. apply frames_keeps, frames_mret.
Qed.
Lemma total_on_message_begin now msg : total (on_message_begin now msg).
Proof.
  unfold on_message_begin. destruct (skipped _); [apply total_mret|].
  apply total_bind; [apply total_getUser|]. intros u. apply total_mret.
Qed.
Lemma resolves_on_message_begin now msg :
  skipped (msg_text msg) = false → resolves (from_id msg) (on_message_begin now msg).
Proof.
  intros H. unfold on_message_begin. rewrite H.
  apply resolves_bind_l; [apply resolves_getUser|].
  intros u. apply frames_keeps, frames_mret.
Qed.
Lemma frames_on_message_begin now msg :
  skipped (msg_text msg) = true → frames_users (on_message_begin now msg).
Proof. intros H. unfold on_message_begin. rewrite H. apply frames_mret. Qed.

Section onText.
Context (re : list atom) (cb : list str → M unit) (msg : message).

Lemma keeps_onText : (∀ caps, keeps_users (cb caps)) → keeps_users (onText re cb msg).
Proof.
  intros H. unfold onText. destruct (msg_text msg) as [t|]; [|apply frames_keeps, frames_mret].
  destruct (exec re t); [apply H | apply frames_keeps, frames_mret].
Qed.
Lemma total_onText : (∀ caps, total (cb caps)) → total (onText re cb msg).
Proof.
  intros H. unfold onText. destruct (msg_text msg) as [t|]; [|apply total_mret].
  destruct (exec re t); [apply H | apply total_mret].
Qed.
Lemma resolves_onText id :
  matches re msg = true → (∀ caps, resolves id (cb caps)) → resolves id (onText re cb msg).
Proof.
  unfold matches, onText. intros Hm H. destruct (msg_text msg) as [t|]; [|done].
  apply bool_decide_eq_true in Hm as [caps ->]. apply H.
Qed.
Lemma frames_onText_no_match :
  matches re msg = false → frames_users (onText re cb msg).
Proof.
  unfold matches, onText. intros Hm. destruct (msg_text msg) as [t|]; [|apply frames_mret].
  apply bool_decide_eq_false in Hm. destruct (exec re t); [|apply frames_mret].
  by destruct Hm.
Qed.
Lemma frames_onText : (∀ caps, frames_users (cb caps)) → frames_users (onText re cb msg).
Proof.
  intros H. unfold onText. destruct (msg_text msg) as [t|]; [|apply frames_mret].
  destruct (exec re t); [apply H | apply frames_mret].
Qed.
End onText.

Lemma process_resolves now admin_id u :
  resolves_user u = true → resolves (sender u) (process now admin_id u).
Proof.
  destruct u as [msg assistant|query]; [|intros _; apply resolves_on_callback_query].
  cbn [resolves_user sender process]. intros H.
  assert (∀ m : M unit, keeps_users m →
            keeps_users (onText re_browse (λ _, on_browse msg) msg ;;
                         onText re_stats (λ _, on_stats admin_id msg) msg ;; m)) as Htail.
  { intros m Hm. apply keeps_bind; [|intros _; apply keeps_bind; [|done]].
    - apply frames_keeps, frames_onText. intros _. apply frames_on_browse.
    - apply frames_keeps, frames_onText. intros _. apply frames_on_stats. }
  specialize (Htail _ (frames_keeps _ (frames_on_message_end msg assistant))).
  pose proof (keeps_onText re_droplink
    (λ caps, on_droplink now msg (default [] (caps !! 0%nat)) (default [] (caps !! 1%nat)))
    msg (λ _, keeps_on_droplink _ _ _ _)) as Hdrop.
  pose proof (keeps_onText re_profile (λ _, on_profile now msg) msg
    (λ _, keeps_on_profile _ _)) as Hprof.
  pose proof (keeps_onText re_start (λ _, on_start now msg) msg
    (λ _, keeps_on_start _ _)) as Hstart.
  destruct (skipped (msg_text msg)) eqn:Hs; cbn [negb orb] in H.
  2:{ apply resolves_bind_l; [by apply resolves_on_message_begin|]. intros _.
      repeat (apply keeps_bind; [done|intros _]). done. }
  apply resolves_bind_r; [apply total_on_message_begin|]. intros _.
  destruct (matches re_start msg) eqn:H1; cbn [orb] in H.
  { apply resolves_bind_l.
    - apply resolves_onText; [done|]. intros _. apply resolves_on_start.
    - intros _. repeat (apply keeps_bind; [done|intros _]). done. }
  apply resolves_bind_r; [apply total_onText; intros _; apply total_on_start|]. intros _.
  destruct (matches re_profile msg) eqn:H2; cbn [orb] in H.
  { apply resolves_bind_l.
    - apply resolves_onText; [done|]. intros _. apply resolves_on_profile.
    - intros _. repeat (apply keeps_bind; [done|intros _]). done. }
  apply resolves_bind_r; [apply total_onText; intros _; apply total_on_profile|]. intros _.
  apply resolves_bind_l.
  - apply resolves_onText; [done|]. intros caps. apply resolves_on_droplink.
  - intros _. done.
Qed.

Lemma process_frames now admin_id u :
  resolves_user u = false → frames_users (process now admin_id u).
Proof.
  destruct u as [msg assistant|query]; [|done].
  cbn [resolves_user process]. intros H.
  apply orb_false_iff in H as [H Hd]. apply orb_false_iff in H as [H Hp].
  apply orb_false_iff in H as [Hs Hst]. apply negb_false_iff in Hs.
  apply frames_bind; [by apply frames_on_message_begin|]. intros _.
  apply frames_bind; [by apply frames_onText_no_match|]. intros _.
  apply frames_bind; [by apply frames_onText_no_match|]. intros _.
  apply frames_bind; [by apply frames_onText_no_match|]. intros _.
  apply frames_bind; [apply frames_onText; intros _; apply frames_on_browse|]. intros _.
  apply frames_bind; [apply frames_onText; intros _; apply frames_on_stats|]. intros _.
  apply frames_on_message_end.
Qed.

(** C8 (as the code has it): after an update on which a listener calls
    [getUser] (a button press, a /start, /profile or /droplink command, a
    message relayed to the assistant) a row for the sender exists; every
    other update, /browse and /stats among them, leaves the users table as
    it was.  [getUser] on an id without a row inserts a row with points 0,
    warned 0 and last_active now, and returns an object with points 0 and
    warned 0; on an id with a row it returns that row and changes nothing. *)
Theorem user_record_after_interaction now admin_id u w :
  let w' := run (process now admin_id u) w in
  (resolves_user u = true → is_Some (users (db w') !! sender u)) ∧
  (resolves_user u = false → users (db w') = users (db w)) ∧
  (∀ id uname, users (db w) !! id = None →
     ∃ usr, getUser now id uname w =
              (Ok usr, {| db := with_users (insert id (new_row now uname)) (db w);
                          sent := sent w |}) ∧
            u_points usr = 0 ∧ u_warned usr = 0 ∧
            points (new_row now uname) = 0 ∧ warned (new_row now uname) = 0 ∧
            last_active (new_row now uname) = now) ∧
  (∀ id uname r, users (db w) !! id = Some r →
     getUser now id uname w = (Ok (user_of_row id r), w)).
Proof.
  intros w'. subst w'. split; [|split; [|split]].
  - intros H. by apply process_resolves.
  - intros H. by apply process_frames.
  - intros id uname H. eexists. split; [by apply getUser_new|done].
  - intros id uname r H. by apply getUser_existing.
Qed.

Lemma user_record_after_interaction_witness :
  is_Some (users (db (run (process 7 None (Message (text_message 5 9 "/start") None))
                          empty_world)) !! 5) ∧
  users (db (run (process 7 None (Message (text_message 5 9 "/stats") None))
                 empty_world)) = ∅.
Proof.
  split.
  - apply (user_record_after_interaction 7 None
             (Message (text_message 5 9 "/start") None) empty_world).
    reflexivity.
  - apply (user_record_after_interaction 7 None
             (Message (text_message 5 9 "/stats") None) empty_world).
    reflexivity.
Defined.

(** A first contact by /browse: neither the callback of the trigger nor the
    dispatch of the whole message creates a row for the sender. *)
Lemma browse_creates_no_user :
  let msg := text_message 5 9 "/browse" in
  sender (Message msg None) = 5 ∧
  users (db (run (on_browse msg) empty_world)) !! 5 = None ∧
  users (db (run (process 7 None (Message msg None)) empty_world)) !! 5 = None ∧
  sent (run (process 7 None (Message msg None)) empty_world) = [SendMessage 9 NoLinks].
Proof. by vm_compute. Qed.

(** ** Where the trigger of /droplink splits its text *)

Section droplink_split.
Context {R : Type}.

(** A continuation that cannot succeed on any tail of [b] makes [(.+)]
    fail on [b]. *)
Lemma dot_plus_fails (b : str) : ∀ k : str → str → option R,
  (∀ cap rest, rest `suffix_of` b → k cap rest = None) →
  dot_plus k b = None.
Proof.
  induction b as [|c b IH]; intros k Hk; [done|]. cbn [dot_plus].
  destruct (line_terminator c); [done|].
  rewrite IH.
  - apply Hk. by apply suffix_cons_r.
  - intros cap rest Hs. apply Hk. by apply suffix_cons_r.
Qed.

(** A continuation that always succeeds gets the longest run. *)
Lemma dot_plus_longest (b : str) : ∀ k : str → str → option R,
  dots b → b ≠ [] →
  (∀ cap rest, is_Some (k cap rest)) →
  dot_plus k b = k b [].
Proof.
  induction b as [|c b IH]; intros k Hd Hb Hk; [done|]. cbn [dot_plus].
  apply Forall_cons in Hd as [-> Hd].
  destruct b as [|c' b]; [done|].
  rewrite IH; [|done|done|by intros].
  by destruct (Hk (c :: c' :: b) []) as [r ->].
Qed.

(** A continuation that needs a space next, and succeeds after the space
    that precedes [b], is entered at that space: the group takes all of
    [a], however many spaces [a] has. *)
Lemma dot_plus_backtracks (b a : str) : ∀ k : str → str → option R,
  dots a → a ≠ [] →
  (∀ cap rest, rest `suffix_of` b → k cap rest = None) →
  (∀ cap, is_Some (k cap (32%N :: b))) →
  dot_plus k (a ++ 32%N :: b) = k a (32%N :: b).
Proof.
  induction a as [|c a IH]; intros k Hd Ha Hfail Hok; [done|].
  apply Forall_cons in Hd as [Hc Hd]. cbn [app dot_plus]. rewrite Hc.
  destruct a as [|c' a].
  - cbn [app dot_plus line_terminator]. cbn.
    rewrite dot_plus_fails; [by rewrite Hfail|].
    intros cap rest Hs. by apply Hfail.
  - rewrite IH; [|done|done|by intros; apply Hfail|by intros].
    by destruct (Hok (c :: c' :: a)) as [r ->].
Qed.
End droplink_split.

(** X5: on a text [/droplink a b] without line terminators, where [a] is
    not empty and [b] is a non-empty word without a space, the trigger
    captures all of [a], spaces included, as the url and [b], the last
    word, as the title: it splits at the last space. *)
Lemma exec_droplink_last_space (a b : str) :
  a ≠ [] → b ≠ [] → dots a → dots b → 32%N ∉ b →
  exec re_droplink (js "/droplink " ++ a ++ 32%N :: b) = Some [a; b].
Proof.
  intros Ha Hb Hda Hdb Hsp.
  set (k := λ cap rest : str, match_here [Lit 32; CaptureDotPlus] rest [cap]).
  assert (exec re_droplink (js "/droplink " ++ a ++ 32%N :: b)
          = match dot_plus k (a ++ 32%N :: b) with
            | Some caps => Some caps
            | None => exec re_droplink (js "droplink " ++ a ++ 32%N :: b)
            end) as -> by reflexivity.
  rewrite dot_plus_backtracks; [| done | done | |].
  - unfold k. cbn [match_here]. rewrite N.eqb_refl.
    by rewrite dot_plus_longest.
  - intros cap rest Hs. unfold k. cbn [match_here].
    destruct rest as [|x rest]; [done|].
    destruct (N.eqb_spec x 32) as [->|]; [|done].
    destruct Hsp. destruct Hs as [pre ->]. apply elem_of_app. right. left.
  - intros cap. unfold k. cbn [match_here]. rewrite N.eqb_refl.
    by rewrite dot_plus_longest.
Qed.

(** [split("_")[0]] has no underscore. *)
Lemma split_head_no_underscore data : 95%N ∉ split_head data.
Proof.
  induction data as [|c r IH]; cbn [split_head]; [apply not_elem_of_nil|].
  destruct (N.eqb_spec c 95); [apply not_elem_of_nil|].
  by intros [?|?]%elem_of_cons.
Qed.

(** * Further properties of the handlers *)

(** ** Button presses that earn a number *)

Lemma on_callback_query_first_contact now query w n :
  users (db w) !! cq_from_id query = None →
  earned_for (split_head (cq_data query)) = JNum n →
  on_callback_query now query w =
    (Ok tt,
     {| db := with_users (insert (cq_from_id query)
                 (touch now (set_points (0 + n) (new_row now (cq_from_username query)))))
                 (db w);
        sent := sent w ++
          [AnswerCallbackQuery (cq_id query) (JNum n);
           SendMessage (cq_chat_id query)
             (Earned (str_or (cq_from_username query) (js "User")) (JNum n))] |}).
Proof.
  intros H He. unfold on_callback_query.
  unfold mbind at 1, M_bind at 1.
  rewrite (getUser_new _ _ _ _ H).
  fold (earned_for (split_head (cq_data query))). rewrite He.
  cbn [u_points u_id u_username].
  run_handler. rewrite <- app_assoc. do 3 f_equal.
  apply map_eq; intros j. destruct (decide (cq_from_id query = j)) as [<-|Hne].
  - by rewrite lookup_alter_eq, lookup_alter_eq, !lookup_insert_eq.
  - by rewrite !lookup_alter_ne, !lookup_insert_ne.
Qed.

(** X1: a button press whose reward is a number [n] (like, comment, repost,
    or a kind the table does not know) returns normally, adds exactly [n]
    to the presser's balance (counted from 0 for a presser without a row,
    who gets one), sets last_active to now and clears warned, leaves every
    other user and the links table as they were, and makes exactly two
    calls: the acknowledgment and the broadcast, both carrying [n]. *)
Theorem button_press_credits_reward now query w n :
  earned_for (split_head (cq_data query)) = JNum n →
  let id := cq_from_id query in
  let r := row_or_new now (cq_from_username query) w id in
  let w' := run (on_callback_query now query) w in
  returns (on_callback_query now query) w ∧
  users (db w') !! id =
    Some {| username := username r; points := points r + n;
            last_active := now; warned := 0 |} ∧
  (∀ j, j ≠ id → users (db w') !! j = users (db w) !! j) ∧
  links (db w') = links (db w) ∧
  ∃ name, new_calls w w' =
    [AnswerCallbackQuery (cq_id query) (JNum n);
     SendMessage (cq_chat_id query) (Earned name (JNum n))].
Proof.
  intros He id r w'. subst id r w'. unfold run, returns, new_calls, row_or_new.
  destruct (users (db w) !! cq_from_id query) as [r|] eqn:Hr.
  - rewrite (on_callback_query_number _ _ _ _ _ Hr He).
    cbn [fst snd db sent users links with_users default].
    split; [by eexists|]. split; [by rewrite lookup_insert_eq|].
    split; [by intros j Hj; rewrite lookup_insert_ne|].
    split; [done|]. eexists. by rewrite drop_app_length.
  - rewrite (on_callback_query_first_contact _ _ _ _ Hr He).
    cbn [fst snd db sent users links with_users default].
    split; [by eexists|]. split; [by rewrite lookup_insert_eq|].
    split; [by intros j Hj; rewrite lookup_insert_ne|].
    split; [done|]. eexists. by rewrite drop_app_length.
Qed.

Lemma button_press_credits_reward_witness :
  users (db (run (on_callback_query 77 (press 1 9 "comment_3"))
                 (world_with 1 (row_with 40 5 1)))) !! 1
  = Some (row_with 390 77 0).
Proof.
  refine (proj1 (proj2 (button_press_credits_reward 77 (press 1 9 "comment_3")
                   (world_with 1 (row_with 40 5 1)) 350 _))).
  reflexivity.
Defined.

(** X2: the data /browse attaches to the three buttons of a link card
    parses back, whatever the link id, to the kinds like, comment and
    repost, whose rewards are the 200, 350 and 500 the button labels
    announce. *)
Theorem keyboard_round_trip id :
  split_head <$> keyboard_data id = [js "like"; js "comment"; js "repost"] ∧
  (λ data, earned_for (split_head data)) <$> keyboard_data id
    = [JNum 200; JNum 350; JNum 500].
Proof. split; reflexivity. Qed.

Lemma presses_S n now query w :
  presses (S n) now query w = run (on_callback_query now query) (presses n now query w).
Proof. reflexivity. Qed.

Lemma presses_row n now query k : ∀ w r,
  users (db w) !! cq_from_id query = Some r →
  earned_for (split_head (cq_data query)) = JNum k →
  users (db (presses (S n) now query w)) !! cq_from_id query
    = Some {| username := username r; points := points r + Z.of_nat (S n) * k;
              last_active := now; warned := 0 |} ∧
  links (db (presses (S n) now query w)) = links (db w) ∧
  length (sent (presses (S n) now query w)) = (length (sent w) + 2 * S n)%nat.
Proof.
  induction n as [|n IH]; intros w r Hr He.
  - change (presses 1 now query w) with (run (on_callback_query now query) w).
    unfold run. rewrite (on_callback_query_number _ _ _ _ _ Hr He).
    cbn [snd db sent users links with_users].
    rewrite lookup_insert_eq, length_app. unfold touch, set_points.
    cbn [length username points last_active warned].
    split; [do 2 f_equal; lia|]. split; [done|lia].
  - destruct (IH w r Hr He) as (Hrow & Hlinks & Hsent).
    rewrite presses_S. unfold run.
    rewrite (on_callback_query_number _ _ _ _ _ Hrow He).
    cbn [snd db sent users links with_users].
    rewrite lookup_insert_eq, length_app, Hsent, Hlinks. unfold touch, set_points.
    cbn [length username points last_active warned].
    split; [do 2 f_equal; lia|]. split; [done|lia].
Qed.

(** X3: rewards have no once-only guard and do not look at the link: the
    same button pressed [n] times by a user with a row adds [n] times its
    reward to the balance, changes no link, and makes two calls per press. *)
Theorem repeated_presses_add_up n now query w r k :
  users (db w) !! cq_from_id query = Some r →
  earned_for (split_head (cq_data query)) = JNum k →
  let w' := presses n now query w in
  balance w' (cq_from_id query) = Some (points r + Z.of_nat n * k) ∧
  links (db w') = links (db w) ∧
  length (sent w') = (length (sent w) + 2 * n)%nat.
Proof.
  intros Hr He w'. subst w'. destruct n as [|n].
  - change (presses 0 now query w) with w. unfold balance. rewrite Hr.
    cbn [fmap option_fmap option_map].
    split; [f_equal; lia|]. split; [done|lia].
  - destruct (presses_row n now query k w r Hr He) as (Hrow & Hlinks & Hsent).
    unfold balance. rewrite Hrow. done.
Qed.

Lemma repeated_presses_add_up_witness :
  balance (presses 3 77 (press 1 9 "repost_1") (world_with 1 (row_with 0 5 1))) 1
  = Some 1500.
Proof.
  refine (proj1 (repeated_presses_add_up 3 77 (press 1 9 "repost_1")
                   (world_with 1 (row_with 0 5 1)) (row_with 0 5 1) 500 _ _));
    reflexivity.
Defined.

(** X4: for a presser without a Telegram username the broadcast of the
    press that creates the row names the user "User" (the object built by
    [getUser] has no username), and the broadcast of the next press names
    the user "unknown" (the name stored in the row). *)
Theorem broadcast_name_changes_after_first_press now now' query w n :
  cq_from_username query = None →
  users (db w) !! cq_from_id query = None →
  earned_for (split_head (cq_data query)) = JNum n →
  let w1 := run (on_callback_query now query) w in
  let w2 := run (on_callback_query now' query) w1 in
  last (sent w1) = Some (SendMessage (cq_chat_id query) (Earned (js "User") (JNum n))) ∧
  last (sent w2) = Some (SendMessage (cq_chat_id query) (Earned (js "unknown") (JNum n))).
Proof.
  intros Hu Hr He w1 w2. subst w1 w2. unfold run.
  rewrite (on_callback_query_first_contact _ _ _ _ Hr He). cbn [snd].
  set (w1 := {| db := _; sent := _ |}).
  assert (users (db w1) !! cq_from_id query
          = Some (touch now (set_points (0 + n) (new_row now (cq_from_username query)))))
    as Hr1 by (subst w1; cbn [db users with_users]; apply lookup_insert_eq).
  rewrite (on_callback_query_number _ _ _ _ _ Hr1 He). cbn [snd sent].
  subst w1. cbn [sent]. rewrite Hu.
  split; by rewrite last_app.
Qed.

Lemma broadcast_name_changes_after_first_press_witness :
  last (sent (run (on_callback_query 7 (press 1 9 "like_1")) empty_world))
    = Some (SendMessage 9 (Earned (js "User") (JNum 200))) ∧
  last (sent (run (on_callback_query 8 (press 1 9 "like_1"))
                (run (on_callback_query 7 (press 1 9 "like_1")) empty_world)))
    = Some (SendMessage 9 (Earned (js "unknown") (JNum 200))).
Proof.
  exact (broadcast_name_changes_after_first_press 7 8 (press 1 9 "like_1")
           empty_world 200 eq_refl eq_refl eq_refl).
Defined.

(** ** What the triggers match *)

Lemma exec_droplink_last_space_witness :
  exec re_droplink (js "/droplink " ++ js "a b" ++ 32%N :: js "c")
  = Some [js "a b"; js "c"].
Proof.
  apply (exec_droplink_last_space (js "a b") (js "c")).
  - discriminate.
  - discriminate.
  - repeat constructor.
  - repeat constructor.
  - intros H. repeat (apply elem_of_cons in H as [H|H]; [discriminate|]).
    by apply elem_of_nil in H.
Defined.

Lemma exec_unfold re s :
  exec re s = match match_here re s [] with
              | Some caps => Some caps
              | None => match s with
                        | [] => None
                        | _ :: s' => exec re s'
                        end
              end.
Proof. by destruct s. Qed.

(** Literals match themselves and nothing else. *)
Lemma match_here_lits l re s caps r :
  match_here ((Lit <$> l) ++ re) s caps = Some r →
  ∃ s', s = l ++ s' ∧ match_here re s' caps = Some r.
Proof.
  revert s. induction l as [|c l IH]; intros s H; [by exists s|].
  cbn [fmap list_fmap app match_here] in H.
  destruct s as [|x s]; [done|].
  destruct (N.eqb_spec x c) as [->|]; [|done].
  destruct (IH s H) as (s' & -> & Hs'). by exists s'.
Qed.

Lemma match_here_lits_app l re s caps :
  match_here ((Lit <$> l) ++ re) (l ++ s) caps = match_here re s caps.
Proof.
  induction l as [|c l IH]; [done|].
  cbn [fmap list_fmap app match_here]. by rewrite N.eqb_refl.
Qed.

Lemma exec_droplink_needs_space s : 32%N ∉ s → exec re_droplink s = None.
Proof.
  induction s as [|c s IH]; intros Hs.
  - reflexivity.
  - rewrite exec_unfold.
    destruct (match_here re_droplink (c :: s) []) as [r|] eqn:Hm.
    + apply (match_here_lits (js "/droplink ")) in Hm as (s' & Heq & _).
      destruct Hs. rewrite Heq. apply elem_of_app. left.
      vm_compute. repeat (first [by left | right]).
    + apply IH. intros ?. apply Hs. by right.
Qed.

(** X6: a text [/droplink a] whose argument [a] has no space (a url and no
    title, or nothing at all) does not match the trigger: the callback is
    not run and the world stays as it is, without any reply. *)
Theorem droplink_without_title_is_ignored cb msg a w :
  msg_text msg = Some (js "/droplink " ++ a) →
  32%N ∉ a →
  exec re_droplink (js "/droplink " ++ a) = None ∧
  onText re_droplink cb msg w = (Ok tt, w).
Proof.
  intros Ht Ha.
  assert (exec re_droplink (js "/droplink " ++ a) = None) as He.
  { set (k := λ cap rest : str, match_here [Lit 32; CaptureDotPlus] rest [cap]).
    assert (exec re_droplink (js "/droplink " ++ a)
            = match dot_plus k a with
              | Some caps => Some caps
              | None => exec re_droplink a
              end) as -> by reflexivity.
    rewrite dot_plus_fails; [by apply exec_droplink_needs_space|].
    intros cap rest [pre ->]. unfold k. cbn [match_here].
    destruct rest as [|x rest]; [done|].
    destruct (N.eqb_spec x 32) as [->|]; [|done].
    destruct Ha. apply elem_of_app. right. left. }
  split; [done|]. unfold onText. by rewrite Ht, He.
Qed.

Lemma droplink_without_title_is_ignored_witness :
  onText re_droplink (λ _, on_start 7 (text_message 1 9 "/droplink http://x"))
    (text_message 1 9 "/droplink http://x") empty_world
  = (Ok tt, empty_world).
Proof.
  refine (proj2 (droplink_without_title_is_ignored _
            (text_message 1 9 "/droplink http://x") (js "http://x") empty_world
            eq_refl _)).
  intros H. repeat (apply elem_of_cons in H as [H|H]; [discriminate|]).
  by apply elem_of_nil in H.
Defined.

(** X7: a trigger made of literal characters only (/start, /profile,
    /browse, /stats) matches a text exactly when the text contains the
    command somewhere: at the start, after other words, or as the head of a
    longer word. *)
Theorem literal_trigger_matches_substring (cmd : string) (t : str) :
  is_Some (exec (lits cmd) t) ↔ ∃ pre post, t = pre ++ js cmd ++ post.
Proof.
  unfold lits. split.
  - intros [caps H]. induction t as [|c t IH].
    + rewrite exec_unfold in H.
      destruct (match_here (Lit <$> js cmd) [] []) as [r|] eqn:Hm; [|done].
      rewrite <- (app_nil_r (Lit <$> js cmd)) in Hm.
      apply match_here_lits in Hm as (s' & Heq & _). by exists [], s'.
    + rewrite exec_unfold in H.
      destruct (match_here (Lit <$> js cmd) (c :: t) []) as [r|] eqn:Hm.
      * rewrite <- (app_nil_r (Lit <$> js cmd)) in Hm.
        apply match_here_lits in Hm as (s' & Heq & _). by exists [], s'.
      * destruct (IH H) as (pre & post & ->). by exists (c :: pre), post.
  - intros (pre & post & ->). induction pre as [|c pre IH].
    + rewrite exec_unfold. cbn [app].
      rewrite <- (app_nil_r (Lit <$> js cmd)), match_here_lits_app. by eexists.
    + rewrite exec_unfold. cbn [app].
      by destruct (match_here (Lit <$> js cmd) (c :: pre ++ js cmd ++ post) []).
Qed.

(** ** The assistant listener *)

Lemma trim_start_white ws s :
  Forall (λ c, white_space c = true) ws → trim_start (ws ++ s) = trim_start s.
Proof.
  induction 1 as [|c ws Hc _ IH]; [done|]. cbn [app trim_start]. by rewrite Hc.
Qed.

Lemma trim_start_black c s : white_space c = false → trim_start (c :: s) = c :: s.
Proof. intros H. cbn [trim_start]. by rewrite H. Qed.

Lemma trim_start_head s c r : trim_start s = c :: r → white_space c = false.
Proof.
  induction s as [|x s IH]; [done|]. cbn [trim_start].
  destruct (white_space x) eqn:Hx; [done|]. by intros [= <- _].
Qed.

Lemma trim_start_snoc l c :
  white_space c = false → trim_start (l ++ [c]) = trim_start l ++ [c].
Proof.
  intros Hc. induction l as [|x l IH].
  - cbn. by rewrite Hc.
  - cbn [app trim_start]. by destruct (white_space x).
Qed.

(** Trimming the end does not change what the text starts with. *)
Lemma trim_head s :
  match trim_start s with
  | [] => trim s = []
  | c :: _ => ∃ r, trim s = c :: r
  end.
Proof.
  unfold trim. destruct (trim_start s) as [|c u] eqn:Hs; [done|].
  pose proof (trim_start_head _ _ _ Hs) as Hc.
  rewrite reverse_cons, (trim_start_snoc _ _ Hc), reverse_app. by eexists.
Qed.

Lemma skipped_trim_start s :
  skipped (Some s) = match trim_start s with
                     | [] => true
                     | c :: _ => (c =? 47)%N
                     end.
Proof.
  unfold skipped. cbn [fmap option_fmap option_map].
  pose proof (trim_head s) as H. destruct (trim_start s) as [|c u].
  - by rewrite H.
  - by destruct H as [r ->].
Qed.

(** X8: the assistant listener looks at the text after its leading white
    space.  When nothing is left, or a slash comes first, it does nothing
    at all: no row is created and nothing is sent.  When another character
    comes first, it makes sure the sender has a row, changes no existing
    row, and sends exactly one message to the chat: the assistant's text,
    or the fallback when the completion failed. *)
Theorem relay_skips_blank_and_commands now msg assistant ws rest w :
  Forall (λ c, white_space c = true) ws →
  msg_text msg = Some (ws ++ rest) →
  (rest = [] ∨ (∃ r, rest = 47%N :: r) →
     on_message_begin now msg w = (Ok tt, w) ∧
     on_message_end msg assistant w = (Ok tt, w)) ∧
  (∀ c r, rest = c :: r → white_space c = false → c ≠ 47%N →
     let w1 := run (on_message_begin now msg) w in
     is_Some (users (db w1) !! from_id msg) ∧
     (∀ id x, users (db w) !! id = Some x → users (db w1) !! id = Some x) ∧
     sent w1 = sent w ∧
     on_message_end msg assistant w1 =
       (Ok tt, {| db := db w1;
                  sent := sent w1 ++
                    [SendMessage (chat_id msg)
                       match assistant with
                       | Some reply => AssistantReply reply
                       | None => AssistantFallback
                       end] |})).
Proof.
  intros Hws Ht.
  assert (skipped (msg_text msg) = match rest with
                                   | [] => true
                                   | c :: _ => if white_space c then skipped (Some rest)
                                               else (c =? 47)%N
                                   end) as Hsk.
  { rewrite Ht, skipped_trim_start, trim_start_white by done.
    destruct rest as [|c r]; [done|]. destruct (white_space c) eqn:Hc.
    - by rewrite skipped_trim_start.
    - by rewrite trim_start_black. }
  split.
  - intros Hrest. unfold on_message_begin, on_message_end.
    destruct Hrest as [->|[r ->]]; by rewrite Hsk.
  - intros c r -> Hc H47 w1. subst w1.
    rewrite Hc in Hsk. destruct (N.eqb_spec c 47) as [|_]; [done|].
    unfold on_message_begin, on_message_end. rewrite Hsk. unfold run.
    destruct (users (db w) !! from_id msg) as [x|] eqn:Hx.
    + unfold mbind, M_bind. rewrite (getUser_existing _ _ _ _ _ Hx).
      unfold mret, M_ret. cbn [snd]. rewrite Hx. split; [by eexists|]. split; [done|].
      split; [done|]. by destruct assistant.
    + unfold mbind, M_bind. rewrite (getUser_new _ _ _ _ Hx).
      unfold mret, M_ret. cbn [snd db sent users with_users]. rewrite lookup_insert_eq.
      split; [by eexists|]. split.
      { intros id y Hy. rewrite lookup_insert_ne; [done|]. intros <-. congruence. }
      split; [done|]. by destruct assistant.
Qed.

Lemma relay_skips_blank_and_commands_witness :
  on_message_begin 7 (text_message 1 9 "  /hello") empty_world = (Ok tt, empty_world) ∧
  is_Some (users (db (run (on_message_begin 7 (text_message 1 9 " hello")) empty_world)) !! 1).
Proof.
  split.
  - refine (proj1 (proj1 (relay_skips_blank_and_commands 7
              (text_message 1 9 "  /hello") None (js "  ") (js "/hello") empty_world
              _ eq_refl) _)).
    + by repeat constructor.
    + right. by eexists.
  - refine (proj1 (proj2 (relay_skips_blank_and_commands 7
              (text_message 1 9 " hello") None (js " ") (js "hello") empty_world
              _ eq_refl) _ _ eq_refl eq_refl _)).
    + by repeat constructor.
    + discriminate.
Defined.

(** ** /start and /profile *)

(** X9: for a sender who has a row, /start and /profile change no table (in
    particular they do not count as activity) and send one message each:
    the greeting with the stored balance, addressed to the first name or to
    "friend", and the profile with the stored username, balance and
    last_active, whatever username the message carries.  For a sender
    without a row both insert the row of a first contact and report 0. *)
Theorem start_and_profile_report_the_row now msg w :
  let greeting := Welcome (str_or (from_first_name msg) (js "friend")) in
  match users (db w) !! from_id msg with
  | Some r =>
      on_start now msg w =
        (Ok tt, {| db := db w;
                   sent := sent w ++ [SendMessage (chat_id msg) (greeting (points r))] |}) ∧
      on_profile now msg w =
        (Ok tt, {| db := db w;
                   sent := sent w ++
                     [SendMessage (chat_id msg)
                        (ProfileCard (str_or (Some (username r)) (js "unknown"))
                                     (points r) (last_active r))] |})
  | None =>
      let d := with_users (insert (from_id msg) (new_row now (from_username msg))) (db w) in
      on_start now msg w =
        (Ok tt, {| db := d;
                   sent := sent w ++ [SendMessage (chat_id msg) (greeting 0)] |}) ∧
      on_profile now msg w =
        (Ok tt, {| db := d;
                   sent := sent w ++
                     [SendMessage (chat_id msg)
                        (ProfileCard (str_or (from_username msg) (js "unknown")) 0 now)] |})
  end.
Proof.
  intros greeting. subst greeting. unfold on_start, on_profile, mbind, M_bind.
  destruct (users (db w) !! from_id msg) as [r|] eqn:Hr.
  - by rewrite (getUser_existing _ _ _ _ _ Hr).
  - by rewrite (getUser_new _ _ _ _ Hr).
Qed.

(** ** The UPDATE helpers *)

Lemma alter_missing (f : user_row → user_row) id (m : gmap Z user_row) :
  m !! id = None → alter f id m = m.
Proof.
  intros H. apply map_eq. intros j. destruct (decide (id = j)) as [<-|Hne].
  - by rewrite lookup_alter_eq, H.
  - by rewrite lookup_alter_ne.
Qed.

(** X10: [updateActivity], [addPoints] and [deductPoints] on an id without
    a row update nothing: they return normally, create no row and leave the
    world exactly as it was. *)
Theorem helpers_ignore_unknown_id now id n w :
  users (db w) !! id = None →
  updateActivity now id w = (Ok tt, w) ∧
  addPoints id (JNum n) w = (Ok tt, w) ∧
  deductPoints id (JNum n) w = (Ok tt, w).
Proof.
  intros H. run_handler. rewrite !(alter_missing _ _ _ H).
  by destruct w as [[us ls ss] snt].
Qed.

Lemma helpers_ignore_unknown_id_witness :
  deductPoints 2 (JNum 100) (world_with 1 (row_with 40 5 1))
  = (Ok tt, world_with 1 (row_with 40 5 1)).
Proof.
  exact (proj2 (proj2 (helpers_ignore_unknown_id 0 2 100
                         (world_with 1 (row_with 40 5 1)) eq_refl))).
Defined.

(** X11: [deductPoints] undoes [addPoints] of the same amount, and the other
    way round: after the two calls every table is what it was before. *)
Theorem add_and_deduct_cancel id n w :
  run (deductPoints id (JNum n)) (run (addPoints id (JNum n)) w) = w ∧
  run (addPoints id (JNum n)) (run (deductPoints id (JNum n)) w) = w.
Proof.
  unfold run. run_handler. destruct w as [[us ls ss] snt]. cbn [db sent users links link_seq].
  split; do 2 f_equal; apply map_eq; intros j;
    (destruct (decide (id = j)) as [<-|Hne];
      [rewrite !lookup_alter_eq; destruct (us !! id) as [[u p l wd]|]; [|done];
       unfold set_points; cbn; do 2 f_equal; lia
      |by rewrite !lookup_alter_ne]).
Qed.

(** ** What every run of the bot keeps *)

Section steps.
Context (R : relation world) `{!PreOrder R}.

Lemma steps_mret {A} (a : A) : steps R (mret a).
Proof. intros w. reflexivity. Qed.

Lemma steps_throw {A} e : steps R (throw (A:=A) e).
Proof. intros w. reflexivity. Qed.

Lemma steps_bind {A B} (m : M A) (k : A → M B) :
  steps R m → (∀ a, steps R (k a)) → steps R (m ≫= k).
Proof.
  intros Hm Hk w. specialize (Hm w). unfold run, mbind, M_bind in *.
  destruct (m w) as [[a|e] w1]; cbn [snd] in *; [|done].
  etrans; [exact Hm|]. apply Hk.
Qed.

Lemma steps_forEach {A} (l : list A) (f : A → M unit) :
  (∀ x, steps R (f x)) → steps R (forEach l f).
Proof.
  intros Hf. induction l as [|x l IH]; [apply steps_mret|].
  cbn [forEach]. apply steps_bind; [apply Hf|by intros _].
Qed.

Lemma steps_bind_number v : steps R (bind_number v).
Proof. destruct v; [apply steps_mret | apply steps_throw | apply steps_throw]. Qed.

Lemma steps_onText re cb msg : (∀ caps, steps R (cb caps)) → steps R (onText re cb msg).
Proof.
  intros H. unfold onText. destruct (msg_text msg) as [t|]; [|apply steps_mret].
  destruct (exec re t); [apply H | apply steps_mret].
Qed.

Context (R_emit : ∀ c, steps R (emit c)).
Context (R_getUser : ∀ now id uname, steps R (getUser now id uname)).

Lemma steps_on_start now msg : steps R (on_start now msg).
Proof. apply steps_bind; [apply R_getUser|]. intros u. apply R_emit. Qed.

Lemma steps_on_profile now msg : steps R (on_profile now msg).
Proof. apply steps_bind; [apply R_getUser|]. intros u. apply R_emit. Qed.

Lemma steps_on_browse msg : steps R (on_browse msg).
Proof.
  apply steps_bind; [intros w; reflexivity|]. intros d. cbn zeta.
  case_decide; [apply R_emit|]. apply steps_forEach. intros l. apply R_emit.
Qed.

Lemma steps_on_stats admin_id msg : steps R (on_stats admin_id msg).
Proof.
  unfold on_stats. case_decide; [apply steps_mret|].
  apply steps_bind; [intros w; reflexivity|]. intros d. apply R_emit.
Qed.

Lemma steps_on_message_begin now msg : steps R (on_message_begin now msg).
Proof.
  unfold on_message_begin. destruct (skipped _); [apply steps_mret|].
  apply steps_bind; [apply R_getUser|]. intros u. apply steps_mret.
Qed.

Lemma steps_on_message_end msg assistant : steps R (on_message_end msg assistant).
Proof.
  unfold on_message_end. destruct (skipped _); [apply steps_mret|].
  destruct assistant; apply R_emit.
Qed.

(** A message: the listener and the five triggers. *)
Lemma steps_message now admin_id msg assistant :
  (∀ m1 m2, steps R (on_droplink now msg m1 m2)) →
  steps R (process now admin_id (Message msg assistant)).
Proof.
  intros Hdrop. cbn [process].
  apply steps_bind; [apply steps_on_message_begin|]. intros _.
  apply steps_bind; [apply steps_onText; intros _; apply steps_on_start|]. intros _.
  apply steps_bind; [apply steps_onText; intros _; apply steps_on_profile|]. intros _.
  apply steps_bind; [apply steps_onText; intros caps; apply Hdrop|]. intros _.
  apply steps_bind; [apply steps_onText; intros _; apply steps_on_browse|]. intros _.
  apply steps_bind; [apply steps_onText; intros _; apply steps_on_stats|]. intros _.
  apply steps_on_message_end.
Qed.

Context (R_update : ∀ id f, row_edit f → steps R (update_user id f)).
Context (R_droplink : ∀ now msg m1 m2, steps R (on_droplink now msg m1 m2)).

Lemma row_edit_points (g : user_row → Z) : row_edit (λ r, set_points (g r) r).
Proof. intros r. cbn. auto. Qed.
Lemma row_edit_touch now : row_edit (touch now).
Proof. intros r. cbn. auto. Qed.
Lemma row_edit_warned : row_edit (set_warned 1).
Proof. intros r. cbn. auto. Qed.

Lemma steps_addPoints id v : steps R (addPoints id v).
Proof.
  apply steps_bind; [apply steps_bind_number|]. intros a.
  apply R_update, (row_edit_points (λ r, points r + a)).
Qed.

Lemma steps_deductPoints id v : steps R (deductPoints id v).
Proof.
  apply steps_bind; [apply steps_bind_number|]. intros a.
  apply R_update, (row_edit_points (λ r, points r - a)).
Qed.

Lemma steps_on_callback_query now query : steps R (on_callback_query now query).
Proof.
  apply steps_bind; [apply R_getUser|]. intros u.
  apply steps_bind; [apply steps_addPoints|]. intros _.
  apply steps_bind; [apply R_update, row_edit_touch|]. intros _.
  apply steps_bind; [apply R_emit|]. intros _. apply R_emit.
Qed.

Lemma steps_warn_job now : steps R (warn_job now).
Proof.
  apply steps_bind; [intros w; reflexivity|]. intros d.
  apply steps_forEach. intros u.
  apply steps_bind; [apply R_emit|]. intros _. apply R_update, row_edit_warned.
Qed.

Lemma steps_penalty_job now : steps R (penalty_job now).
Proof.
  apply steps_bind; [intros w; reflexivity|]. intros d.
  apply steps_forEach. intros u.
  apply steps_bind; [apply steps_deductPoints|]. intros _. apply R_emit.
Qed.

Lemma steps_event admin_id e w : R w (apply_event admin_id w e).
Proof.
  destruct e as [now [msg assistant|query]|now|now]; cbn [apply_event].
  - by apply steps_message.
  - apply steps_on_callback_query.
  - apply steps_warn_job.
  - apply steps_penalty_job.
Qed.

Lemma steps_events admin_id es : ∀ w, R w (run_events admin_id es w).
Proof.
  induction es as [|e es IH]; intros w; [reflexivity|].
  cbn [run_events foldl]. etrans; [apply (steps_event admin_id e)|]. apply IH.
Qed.
End steps.

#[global] Instance grows_preorder : PreOrder grows.
Proof.
  split.
  - intros w. by repeat split.
  - intros w1 w2 w3 (Hl1 & Hu1 & Hs1) (Hl2 & Hu2 & Hs2). repeat split.
    + by etrans.
    + auto.
    + by etrans.
Qed.

#[global] Instance keeps_ok_preorder : PreOrder keeps_ok.
Proof. split; [intros w H; exact H | intros w1 w2 w3 H1 H2 H; apply H2, H1, H]. Qed.

#[global] Instance keeps_row_preorder id r : PreOrder (keeps_row id r).
Proof. split; [intros w H; exact H | intros w1 w2 w3 H1 H2 H; apply H2, H1, H]. Qed.

Lemma grows_emit c : steps grows (emit c).
Proof. intros w. repeat split; [done|done|]. by apply prefix_app_r. Qed.

Lemma grows_update id f : steps grows (update_user id f).
Proof.
  intros w. unfold run. rewrite update_user_run. cbn [snd db sent users links with_users].
  repeat split; [done| |done]. intros j Hj. by apply lookup_alter_is_Some.
Qed.

Lemma grows_getUser now id uname : steps grows (getUser now id uname).
Proof.
  intros w. repeat split; [|apply keeps_getUser|].
  - unfold run. destruct (users (db w) !! id) as [r|] eqn:H.
    + by rewrite (getUser_existing _ _ _ _ _ H).
    + by rewrite (getUser_new _ _ _ _ H).
  - unfold run. destruct (users (db w) !! id) as [r|] eqn:H.
    + by rewrite (getUser_existing _ _ _ _ _ H).
    + by rewrite (getUser_new _ _ _ _ H).
Qed.

Lemma grows_insert_link now uid u t : steps grows (insert_link now uid u t).
Proof. intros w. repeat split; [|done|done]. by apply prefix_app_r. Qed.

Lemma grows_on_droplink now msg m1 m2 : steps grows (on_droplink now msg m1 m2).
Proof.
  apply steps_bind; [apply _|apply grows_getUser|]. intros u. cbn zeta.
  destruct (u_points u <? cost); [apply grows_emit|].
  apply steps_bind; [apply _| |intros _].
  { apply steps_bind; [apply _|apply steps_bind_number, _|]. intros a. apply grows_update. }
  apply steps_bind; [apply _|apply grows_insert_link|intros _].
  apply steps_bind; [apply _|apply grows_update|intros _]. apply grows_emit.
Qed.

Lemma row_ok_new now uname : row_ok (new_row now uname).
Proof.
  split; [|by left]. cbn. by destruct uname as [[|c s]|].
Qed.

Lemma row_ok_edit f r : row_edit f → row_ok r → row_ok (f r).
Proof.
  intros Hf [Hn Hw]. destruct (Hf r) as [Hn' Hw']. split; [by rewrite Hn'|].
  destruct Hw' as [Hw'|[Hw'|Hw']]; rewrite Hw'; auto.
Qed.

Lemma db_ok_users d (f : gmap Z user_row → gmap Z user_row) :
  (∀ id, is_Some (users d !! id) → is_Some (f (users d) !! id)) →
  (∀ id r, f (users d) !! id = Some r → row_ok r) →
  db_ok d → db_ok (with_users f d).
Proof.
  intros Hdom Hrows (Hseq & Hlinks & _). split; [done|]. split; [|done].
  intros i l Hl. destruct (Hlinks i l Hl) as [Hid Hown]. split; [done|by apply Hdom].
Qed.

Lemma keeps_ok_emit c : steps keeps_ok (emit c).
Proof. by intros w H. Qed.

Lemma keeps_ok_update id f : row_edit f → steps keeps_ok (update_user id f).
Proof.
  intros Hf w Hok. unfold run. rewrite update_user_run. cbn [snd db].
  apply db_ok_users; [| |done].
  - intros j Hj. by apply lookup_alter_is_Some.
  - intros j r Hr. destruct Hok as (_ & _ & Hrows).
    destruct (decide (id = j)) as [<-|Hne].
    + rewrite lookup_alter_eq in Hr. destruct (users (db w) !! id) as [r0|] eqn:H0; [|done].
      injection Hr as <-. apply row_ok_edit; [done|]. by apply (Hrows id).
    + rewrite lookup_alter_ne in Hr by done. by apply (Hrows j).
Qed.

Lemma db_ok_insert d id r :
  row_ok r → db_ok d → db_ok (with_users (insert id r) d).
Proof.
  intros Hr Hok. apply db_ok_users; [| |done].
  - intros j Hj. rewrite lookup_insert_is_Some. destruct (decide (id = j)); auto.
  - intros j x Hx. destruct Hok as (_ & _ & Hrows).
    destruct (decide (id = j)) as [<-|Hne].
    + rewrite lookup_insert_eq in Hx. by injection Hx as <-.
    + rewrite lookup_insert_ne in Hx by done. by apply (Hrows j).
Qed.

Lemma keeps_ok_getUser now id uname : steps keeps_ok (getUser now id uname).
Proof.
  intros w Hok. unfold run. destruct (users (db w) !! id) as [r|] eqn:H.
  - by rewrite (getUser_existing _ _ _ _ _ H).
  - rewrite (getUser_new _ _ _ _ H). cbn [snd db].
    apply db_ok_insert; [apply row_ok_new|done].
Qed.

Lemma keeps_ok_on_droplink now msg m1 m2 : steps keeps_ok (on_droplink now msg m1 m2).
Proof.
  intros w Hok. unfold run. destruct (users (db w) !! from_id msg) as [r|] eqn:H.
  - destruct (Z_lt_ge_dec (points r) cost) as [Hlt|Hge].
    + by rewrite (on_droplink_failure _ _ _ _ _ _ H Hlt).
    + assert (cost ≤ points r) as Hle by lia.
      rewrite (on_droplink_success _ _ _ _ _ _ H Hle). cbn [snd db].
      destruct Hok as (Hseq & Hlinks & Hrows). split; [|split]; cbn [users links link_seq].
      * rewrite length_app. cbn [length]. lia.
      * intros i l Hl. apply lookup_app_Some in Hl as [Hl|[Hi Hl]].
        -- destruct (Hlinks i l Hl) as [Hid Hown]. split; [done|].
           rewrite lookup_insert_is_Some. destruct (decide (from_id msg = user_id l)); auto.
        -- destruct (i - length (links (db w)))%nat as [|k] eqn:Hk; [|done].
           injection Hl as <-. cbn [link_id user_id]. split; [lia|].
           by rewrite lookup_insert_eq.
      * intros j x Hx. destruct (decide (from_id msg = j)) as [<-|Hne].
        -- rewrite lookup_insert_eq in Hx. injection Hx as <-.
           apply (row_ok_edit (touch now)); [by intros ?; cbn; auto|].
           apply (row_ok_edit (λ r, set_points (points r - cost) r)); [by intros ?; cbn; auto|].
           by apply (Hrows (from_id msg)).
        -- rewrite lookup_insert_ne in Hx by done. by apply (Hrows j).
  - rewrite (on_droplink_first_contact _ _ _ _ _ H). cbn [snd db].
    apply db_ok_insert; [apply row_ok_new|done].
Qed.

Lemma db_ok_empty : db_ok empty_db.
Proof. split; [done|]. split; [by intros [|i] l|by intros id r]. Qed.

(** X12: in every state the bot reaches from the empty tables, by any
    sequence of updates and cron ticks, the link ids are 1, 2, 3, ... in
    the order of insertion (so no two links share an id) and the sequence
    counts them, every link is owned by a user who has a row, every stored
    username is non-empty, and every warned flag is 0 or 1. *)
Theorem reachable_tables_consistent admin_id es :
  let d := db (run_events admin_id es empty_world) in
  link_seq d = Z.of_nat (length (links d)) ∧
  (∀ i l, links d !! i = Some l →
     link_id l = Z.of_nat i + 1 ∧ is_Some (users d !! user_id l)) ∧
  (∀ id r, users d !! id = Some r → username r ≠ [] ∧ (warned r = 0 ∨ warned r = 1)).
Proof.
  intros d. subst d.
  apply (steps_events keeps_ok keeps_ok_emit keeps_ok_getUser keeps_ok_update
           keeps_ok_on_droplink admin_id es empty_world).
  apply db_ok_empty.
Qed.

(** X13: no update and no cron tick ever takes anything back: over any
    sequence of events, from any state, the links table only gets new rows
    at its end (no link is changed or deleted), every user who has a row
    keeps one, and the calls already made on the client stay made. *)
Theorem runs_only_grow admin_id es w :
  let w' := run_events admin_id es w in
  links (db w) `prefix_of` links (db w') ∧
  (∀ id, is_Some (users (db w) !! id) → is_Some (users (db w') !! id)) ∧
  sent w `prefix_of` sent w'.
Proof.
  apply (steps_events grows grows_emit grows_getUser (λ id f _, grows_update id f)
           grows_on_droplink admin_id es w).
Qed.

(** ** What does not count as activity *)






(** ** The sweeps on the whole table *)

Lemma filter_none {A} (P : A → Prop) `{!∀ x, Decision (P x)} (l : list A) :
  (∀ x, x ∈ l → ¬ P x) → filter P l = [].
Proof.
  induction l as [|x l IH]; intros Hno; [done|].
  rewrite filter_cons_False by (apply Hno; left). apply IH. intros y Hy. apply Hno. by right.
Qed.

Lemma select_warn_after_warn_job now w :
  select_warn now (db (run (warn_job now) w)) = [].
Proof.
  unfold run. rewrite warn_job_run. cbn [snd db].
  unfold select_warn at 1. cbn [users with_users].
  apply filter_none. intros [id r1] Hin [Hw He]. cbn [snd] in *.
  apply elem_of_map_to_list in Hin.
  set (P := λ u : Z * user_row, warned u.2 = 0 ∧ elapsed now u.2 > 172800) in *.
  unfold select_warn in Hin.
  rewrite (alter_all_lookup _ _ _ _ (selected_keys_NoDup P _)) in Hin.
  destruct (decide (id ∈ (filter P (map_to_list (users (db w)))).*1)) as [Hsel|Hsel].
  - destruct (users (db w) !! id) as [r|]; [|done]. injection Hin as <-.
    cbn in Hw. lia.
  - apply Hsel. by apply (selected_key P _ _ _ Hin).
Qed.

(** X15: the warn job is idempotent at a given time: a second run right
    after the first finds nobody to warn, sends nothing and changes no
    row. *)
Theorem warn_job_twice_is_once now w :
  run (warn_job now) (run (warn_job now) w) = run (warn_job now) w.
Proof.
  pose proof (select_warn_after_warn_job now w) as Hs.
  set (w1 := run (warn_job now) w) in *. unfold run.
  rewrite warn_job_run, Hs. cbn [snd fmap list_fmap].
  change (alter_all (set_warned 1) []) with (λ m : gmap Z user_row, m).
  rewrite with_users_id, app_nil_r. by destruct w1.
Qed.

Lemma total_points_alter (f : user_row → user_row) m k r :
  m !! k = Some r →
  total_points (alter f k m) = total_points m - points r + points (f r).
Proof.
  intros H. rewrite (alter_alt_Some _ _ _ _ H), <- insert_delete_eq.
  rewrite total_points_insert by apply lookup_delete_eq.
  rewrite <- (insert_delete_id m k r H) at 2.
  rewrite total_points_insert by apply lookup_delete_eq. lia.
Qed.

Lemma total_points_penalties (l : list (Z * user_row)) : ∀ m : gmap Z user_row,
  Forall (λ u, is_Some (m !! u.1)) l →
  total_points (alter_all (λ r, set_points (points r - 100) r) l m)
  = total_points m - 100 * Z.of_nat (length l).
Proof.
  set (f := λ r, set_points (points r - 100) r).
  induction l as [|[k x] l IH]; intros m Hl.
  - cbn. lia.
  - apply Forall_cons in Hl as [[r Hr] Hl]. cbn [fst] in Hr.
    change (alter_all f ((k, x) :: l) m) with (alter_all f l (alter f k m)).
    rewrite IH.
    + rewrite (total_points_alter _ _ _ _ Hr). subst f. cbn [length set_points points]. lia.
    + eapply Forall_impl; [exact Hl|]. intros u Hu. by apply lookup_alter_is_Some.
Qed.

(** X16: a penalty tick takes exactly 100 points for each penalty message
    it sends and none otherwise: the sum of all balances drops by 100 times
    the number of calls the tick makes, every one of which is a penalty
    message to a user past the threshold. *)
Theorem penalty_job_accounting now w :
  let w' := run (penalty_job now) w in
  total_points (users (db w'))
    = total_points (users (db w)) - 100 * Z.of_nat (length (new_calls w w')) ∧
  Forall (λ c, ∃ id r, c = SendMessage id InactivityPenalty ∧
                       users (db w) !! id = Some r ∧ elapsed now r > 259200)
         (new_calls w w').
Proof.
  intros w'. subst w'. unfold new_calls, run. rewrite penalty_job_run.
  cbn [snd db sent users with_users]. rewrite drop_app_length, length_fmap.
  split.
  - apply total_points_penalties. apply Forall_forall. intros [id r] Hin.
    apply list_elem_of_filter in Hin as [_ Hin]. apply elem_of_map_to_list in Hin.
    by eexists.
  - apply Forall_fmap, Forall_forall. intros [id r] Hin.
    apply list_elem_of_filter in Hin as [HP Hin]. apply elem_of_map_to_list in Hin.
    by exists id, r.
Qed.

Lemma total_points_insert_Some m k r x :
  m !! k = Some r →
  total_points (<[k := x]> m) = total_points m - points r + points x.
Proof.
  intros H. rewrite <- (alter_alt_Some (λ _, x) m k r H).
  apply (total_points_alter (λ _, x) m k r H).
Qed.

(** X17: the ledger moves only by the posted amounts: for a user with a
    row, a link that is posted lowers the sum of all balances by exactly
    1000, a /droplink that is refused leaves it, and a button press with
    reward [n] raises it by exactly [n]. *)
Theorem ledger_deltas now msg m1 m2 query n w r x :
  users (db w) !! from_id msg = Some r →
  users (db w) !! cq_from_id query = Some x →
  earned_for (split_head (cq_data query)) = JNum n →
  let total w := total_points (users (db w)) in
  (1000 ≤ points r → total (run (on_droplink now msg m1 m2) w) = total w - 1000) ∧
  (points r < 1000 → total (run (on_droplink now msg m1 m2) w) = total w) ∧
  total (run (on_callback_query now query) w) = total w + n.
Proof.
  intros Hr Hx He total. subst total. unfold run. split; [|split].
  - intros Hp. rewrite (on_droplink_success _ _ _ _ _ _ Hr Hp). cbn [snd db users].
    rewrite (total_points_insert_Some _ _ _ _ Hr). unfold cost. cbn. lia.
  - intros Hp. by rewrite (on_droplink_failure _ _ _ _ _ _ Hr Hp).
  - rewrite (on_callback_query_number _ _ _ _ _ Hx He). cbn [snd db users with_users].
    rewrite (total_points_insert_Some _ _ _ _ Hx). cbn. lia.
Qed.

Lemma ledger_deltas_witness :
  total_points (users (db (run (on_droplink 7 (text_message 1 9 "") (js "u") (js "t"))
                              two_posters)))
  = total_points (users (db two_posters)) - 1000.
Proof.
  refine (proj1 (ledger_deltas 7 (text_message 1 9 "") (js "u") (js "t")
                   (press 2 9 "like_1") 200 two_posters
                   (row_with 1000 0 0) (row_with 1000 0 0) eq_refl eq_refl eq_refl) _).
  cbn. lia.
Defined.

(** ** What /browse sends *)



(** X19: a link posted at a time later than the creation time of every
    stored link is the first one /browse shows afterwards. *)
Theorem posted_link_is_listed_first now msg m1 m2 w r :
  users (db w) !! from_id msg = Some r →
  1000 ≤ points r →
  Forall (λ l, created_at l < now) (links (db w)) →
  head (recent_links (db (run (on_droplink now msg m1 m2) w)))
  = Some {| link_id := link_seq (db w) + 1; user_id := from_id msg;
            url := m1; title := m2; created_at := now |}.
Proof.
  intros Hr Hp Hold. unfold run.
  rewrite (on_droplink_success _ _ _ _ _ _ Hr Hp). cbn [snd db].
  unfold recent_links. cbn [links].
  set (new := {| link_id := _; user_id := _; url := _; title := _; created_at := _ |}).
  set (s := merge_sort newer_or_same (links (db w) ++ [new])).
  assert (StronglySorted newer_or_same s) as Hs
    by (apply StronglySorted_merge_sort; apply _).
  assert (s ≡ₚ links (db w) ++ [new]) as Hperm by apply merge_sort_Permutation.
  assert (new ∈ s) as Hnew by (rewrite Hperm; apply elem_of_app; right; left).
  destruct s as [|h t]; [by apply elem_of_nil in Hnew|].
  cbn [take head]. f_equal.
  apply elem_of_cons in Hnew as [->|Hnew]; [done|].
  apply StronglySorted_inv in Hs as [_ Hh]. rewrite Forall_forall in Hh.
  specialize (Hh new Hnew). unfold newer_or_same in Hh. cbn [created_at new] in Hh.
  assert (h ∈ links (db w) ++ [new]) as Hin by (rewrite <- Hperm; left).
  apply elem_of_app in Hin as [Hin|Hin].
  - rewrite Forall_forall in Hold. specialize (Hold h Hin). subst new. cbn in Hh. lia.
  - apply elem_of_cons in Hin as [->|Hin]; [done|]. by apply elem_of_nil in Hin.
Qed.

Lemma posted_link_is_listed_first_witness :
  head (recent_links (db (run (on_droplink 8 (text_message 1 9 "") (js "http://c") (js "C"))
                              (run (on_droplink 7 (text_message 2 9 "") (js "http://b") (js "B"))
                                   two_posters))))
  = Some {| link_id := 2; user_id := 1; url := js "http://c"; title := js "C";
            created_at := 8 |}.
Proof.
  apply (posted_link_is_listed_first 8 (text_message 1 9 "") (js "http://c") (js "C")
           (run (on_droplink 7 (text_message 2 9 "") (js "http://b") (js "B")) two_posters)
           (row_with 1000 0 0)).
  - reflexivity.
  - cbn. lia.
  - repeat constructor.
Defined.

(** ** The action kind of a press *)

(** X20: the action kind of a press is its data up to the first
    underscore, and all of the data when there is no underscore: whatever
    follows the first underscore (the link id the keyboard puts there, or
    anything else) has no part in the reward. *)
Theorem action_kind_ignores_the_rest (a rest : str) :
  95%N ∉ a →
  split_head (a ++ 95%N :: rest) = a ∧
  split_head a = a ∧
  earned_for (split_head (a ++ 95%N :: rest)) = earned_for a.
Proof.
  intros Ha.
  assert (split_head (a ++ 95%N :: rest) = a) as H1.
  { induction a as [|c a IH]; [done|]. cbn [app split_head].
    destruct (N.eqb_spec c 95) as [->|_]; [destruct Ha; left|].
    rewrite IH; [done|]. intros ?. apply Ha. by right. }
  split_and!; [done| |by rewrite H1].
  clear H1. induction a as [|c a IH]; [done|]. cbn [split_head].
  destruct (N.eqb_spec c 95) as [->|_]; [destruct Ha; left|].
  rewrite IH; [done|]. intros ?. apply Ha. by right.
Qed.

Lemma action_kind_ignores_the_rest_witness :
  split_head (js "repost" ++ 95%N :: js "12_x") = js "repost".
Proof.
  refine (proj1 (action_kind_ignores_the_rest (js "repost") (js "12_x") _)).
  intros H. repeat (apply elem_of_cons in H as [H|H]; [discriminate|]).
  by apply elem_of_nil in H.
Defined.
